(** * Host IRQ domain manager and SBI capability constants of Xvisor

    Shallow embedding of [vmm_host_irqdomain.c] and of the constants of
    [cpu_vcpu_sbi.h], followed by the properties the specification states
    about them.

    Conventions of the embedding:
    - a C [unsigned int] is a [Z] in [0, 2^32) and a C [int] a [Z] in
      [-2^31, 2^31); every conversion and every modular operation of the
      source is written out with [to_uint] / [to_int];
    - a pointer to a domain record is an [option ptr] ([None] is NULL);
    - the registry [idctrl.domains] is the list of the linked records, in
      list order, each with its address;
    - the collaborators the file calls (generic interrupt registry,
      extended-IRQ allocator, heap, console) are an interface
      ([Collaborators]); every call is recorded in a trace;
    - the reader/writer lock is not modelled: the embedding is sequential. *)

From Stdlib Require Import ZArith Lia Bool.
From stdpp Require Import base list list_numbers.

Local Open Scope Z_scope.

(** ** Machine integers *)

Definition UINT_MAX : Z := 2 ^ 32 - 1.
Definition INT_MAX : Z := 2 ^ 31 - 1.
Definition INT_MIN : Z := - 2 ^ 31.

Definition is_uint (z : Z) : Prop := 0 <= z <= UINT_MAX.
Definition is_int (z : Z) : Prop := INT_MIN <= z <= INT_MAX.

(** Conversion to [unsigned int]: reduction modulo 2^32. *)
Definition to_uint (z : Z) : Z := z mod 2 ^ 32.

(** Conversion to [int] (two's complement), as done when an unsigned
    expression is returned from a function of return type [int]. *)
Definition to_int (z : Z) : Z :=
  let u := z mod 2 ^ 32 in if u <? 2 ^ 31 then u else u - 2 ^ 32.

(** ** cpu_vcpu_sbi.h *)

Definition CPU_VCPU_SBI_VERSION_MAJOR : Z := 0.
Definition CPU_VCPU_SBI_VERSION_MINOR : Z := 3.
Definition CPU_VCPU_SBI_IMPID : Z := 2.

(** ** Data model *)

(** Address of a heap-allocated domain record. *)
Definition ptr : Type := positive.

(** Modelled from the spec: [struct vmm_host_irqdomain], declared in
    [vmm_host_irqdomain.h], which is not among the sources at hand.
    Section 3 gives its attributes: [base], [count], [end = base + count],
    [host_data], the node reference and the operations table.  The source
    compares and adds the three numbers with [unsigned int] operands; they
    are [unsigned int] here.  The list head is the position of the record in
    the registry; [of_node], [host_data] and [ops] are opaque handles that
    this file only stores. *)
Record vmm_host_irqdomain : Type := mk_domain {
  of_node : Z;
  base : Z;
  count : Z;
  end_ : Z;
  host_data : Z;
  ops : Z
}.

(** Constants of the platform that the file uses and does not define. *)
Class Platform : Type := {
  CONFIG_HOST_IRQ_COUNT : Z;
  VMM_OK : Z;
  VMM_ENOTAVAIL : Z
}.

(** The external collaborators, over their own state [E].  An [int] result
    below zero is a failure. *)
Class Collaborators (E : Type) : Type := {
  (** [vmm_host_irq_get(n) != NULL] *)
  vmm_host_irq_get : E -> Z -> bool;
  vmm_host_irqext_create_mapping : E -> Z -> Z * E;
  vmm_host_irqext_dispose_mapping : E -> Z -> Z * E;
  vmm_host_irqext_alloc_region : E -> Z -> Z * E;
  vmm_zalloc : E -> option ptr * E;
  vmm_free : E -> ptr -> E
}.

(** Calls that leave this file. *)
Inductive event : Type :=
  | EvZalloc
  | EvFree (p : ptr)
  | EvAllocRegion (size : Z)
  | EvCreateMapping (irq : Z)
  | EvDisposeMapping (irq : Z)
  | EvPrintf.

(** Process-wide state: [idctrl.domains], the collaborators' state and the
    calls made so far (oldest first). *)
Record world (E : Type) : Type := mk_world {
  domains : list (ptr * vmm_host_irqdomain);
  ext : E;
  trace : list event
}.
Arguments mk_world {E} _ _ _.
Arguments domains {E} _.
Arguments ext {E} _.
Arguments trace {E} _.

(** ** A state monad over the world *)

Definition M (E A : Type) : Type := world E -> A * world E.

Definition ret {E A : Type} (a : A) : M E A := fun w => (a, w).

Definition bind {E A B : Type} (m : M E A) (k : A -> M E B) : M E B :=
  fun w => let (a, w') := m w in k a w'.

Notation "x <- m ;; k" := (bind m (fun x => k))
  (at level 90, m at level 80, right associativity).
Notation "m ;;; k" := (bind m (fun _ => k))
  (at level 90, right associativity).

Section Operations.

Context {plat : Platform} {E : Type} {col : Collaborators E}.

(** Run a collaborator that returns a result and a new state, and record
    the call. *)
Definition call {A : Type} (ev : event) (f : E -> A * E) : M E A :=
  fun w => let (r, e') := f (ext w) in
           (r, mk_world (domains w) e' (trace w ++ [ev])).

Definition irqext_create_mapping (irq : Z) : M E Z :=
  call (EvCreateMapping irq) (fun e => vmm_host_irqext_create_mapping e irq).

Definition irqext_dispose_mapping (irq : Z) : M E Z :=
  call (EvDisposeMapping irq) (fun e => vmm_host_irqext_dispose_mapping e irq).

Definition irqext_alloc_region (size : Z) : M E Z :=
  call (EvAllocRegion size) (fun e => vmm_host_irqext_alloc_region e size).

Definition zalloc : M E (option ptr) :=
  call EvZalloc vmm_zalloc.

Definition free (p : ptr) : M E unit :=
  call (EvFree p) (fun e => (tt, vmm_free e p)).

Definition vmm_printf : M E unit :=
  call EvPrintf (fun e => (tt, e)).

(** [list_add_tail(&newdomain->head, &idctrl.domains)] *)
Definition list_add_tail (p : ptr) (d : vmm_host_irqdomain) : M E unit :=
  fun w => (tt, mk_world (domains w ++ [(p, d)]) (ext w) (trace w)).

(** ** vmm_host_irqdomain_to_hwirq *)

Definition vmm_host_irqdomain_to_hwirq
    (domain : vmm_host_irqdomain) (hirq : Z) : Z :=
  if (hirq <? base domain) || (hirq >? end_ domain) then VMM_ENOTAVAIL
  else to_int (to_uint (hirq - base domain)).

(** ** vmm_host_irqdomain_find_mapping *)

Definition vmm_host_irqdomain_find_mapping
    (e : E) (domain : vmm_host_irqdomain) (hwirq : Z) : Z :=
  if hwirq >? count domain then -1
  else if vmm_host_irq_get e (to_uint (base domain + hwirq))
       then to_int (to_uint (base domain + hwirq))
       else -1.

(** ** vmm_host_irqdomain_get *)

(** The [list_for_each_entry] loop: the first record, in list order, with
    [hirq > base && hirq < end]. *)
Fixpoint scan_domains (l : list (ptr * vmm_host_irqdomain)) (hirq : Z)
    : option ptr :=
  match l with
  | [] => None
  | (p, domain) :: rest =>
      if (hirq >? base domain) && (hirq <? end_ domain) then Some p
      else scan_domains rest hirq
  end.

Definition vmm_host_irqdomain_get (hirq : Z) : M E (option ptr) :=
  fun w =>
    match scan_domains (domains w) hirq with
    | Some p => ret (Some p) w
    | None => (vmm_printf ;;; ret None) w
    end.

(** ** vmm_host_irqdomain_create_mapping *)

(** The conditional of the last line has an [int] and an [unsigned int]
    branch; an [int] converted to [unsigned int] and back by the return is
    unchanged, so the allocator's failure code is returned as it is. *)
Definition vmm_host_irqdomain_create_mapping
    (domain : option vmm_host_irqdomain) (hwirq : Z) : M E Z :=
  match domain with
  | None => ret VMM_ENOTAVAIL
  | Some d =>
      if hwirq >? count d then ret VMM_ENOTAVAIL
      else fun w =>
        let hirq := vmm_host_irqdomain_find_mapping (ext w) d hwirq in
        if hirq >=? 0 then ret hirq w
        else
          (hirq' <- irqext_create_mapping (to_uint (base d + hwirq)) ;;
           ret (if hirq' <? 0 then hirq'
                else to_int (to_uint (base d + hwirq)))) w
  end.

(** ** vmm_host_irqdomain_dispose_mapping *)

Definition vmm_host_irqdomain_dispose_mapping (hirq : Z) : M E Z :=
  domain <- vmm_host_irqdomain_get hirq ;;
  match domain with
  | None => ret VMM_ENOTAVAIL
  | Some _ => irqext_dispose_mapping hirq
  end.

(** ** vmm_host_irqdomain_add *)

(** The tail of [add], from [INIT_LIST_HEAD] on: fill the record at [p]
    with base [pos] and link it at the tail. *)
Definition populate (p : ptr) (of_node pos size ops host_data : Z)
    : M E (option ptr) :=
  let b := to_uint pos in
  list_add_tail p (mk_domain of_node b size (to_uint (b + size))
                             host_data ops) ;;;
  ret (Some p).

(** The guard at the head of [add].  [base] is an [int], [size] an
    [unsigned int]: [base + size] is computed modulo 2^32 and compared with
    the constant as unsigned. *)
Definition beyond_capacity (base size : Z) : bool :=
  (base >=? 0) &&
  ((CONFIG_HOST_IRQ_COUNT <=? base) ||
   (to_uint CONFIG_HOST_IRQ_COUNT <=? to_uint (base + size))).

Definition vmm_host_irqdomain_add
    (of_node base size ops host_data : Z) : M E (option ptr) :=
  if beyond_capacity base size then ret None
  else
    newdomain <- zalloc ;;
    match newdomain with
    | None => ret None
    | Some p =>
        if base <? 0 then
          pos <- irqext_alloc_region size ;;
          if pos <? 0 then vmm_printf ;;; free p ;;; ret None
          else populate p of_node pos size ops host_data
        else populate p of_node base size ops host_data
    end.

(** ** vmm_host_irqdomain_remove *)

(** The record a pointer of the registry points to. *)
Fixpoint record_at (p : ptr) (l : list (ptr * vmm_host_irqdomain))
    : option vmm_host_irqdomain :=
  match l with
  | [] => None
  | (q, d) :: rest => if decide (q = p) then Some d else record_at p rest
  end.

(** [list_del(&domain->head)]: unlink the node at address [p]. *)
Fixpoint list_del (p : ptr) (l : list (ptr * vmm_host_irqdomain))
    : list (ptr * vmm_host_irqdomain) :=
  match l with
  | [] => []
  | (q, d) :: rest => if decide (q = p) then rest else (q, d) :: list_del p rest
  end.

Definition set_domains (l : list (ptr * vmm_host_irqdomain)) : M E unit :=
  fun w => (tt, mk_world l (ext w) (trace w)).

(** [for (pos = base; pos < end; ++pos) vmm_host_irqext_dispose_mapping(pos);]
    run for at most [fuel] iterations; the result of each call is dropped. *)
Fixpoint dispose_loop (fuel : nat) (pos end' : Z) : M E unit :=
  match fuel with
  | O => ret tt
  | S fuel' =>
      if pos <? end' then
        irqext_dispose_mapping pos ;;;
        dispose_loop fuel' (to_uint (pos + 1)) end'
      else ret tt
  end.

(** [None] stands for the undefined behaviour of passing a pointer that is
    not a linked record.  The loop gets [end - base] iterations of fuel,
    which is the number of iterations it makes. *)
Definition vmm_host_irqdomain_remove (domain : option ptr)
    : world E -> option (world E) :=
  fun w =>
    match domain with
    | None => Some w
    | Some p =>
        match record_at p (domains w) with
        | None => None
        | Some d =>
            Some (snd ((set_domains (list_del p (domains w)) ;;;
                        dispose_loop (Z.to_nat (end_ d - base d))
                                     (base d) (end_ d) ;;;
                        free p) w))
        end
    end.

(** ** vmm_host_irqdomain_init *)

Definition vmm_host_irqdomain_init : M E Z :=
  set_domains [] ;;; ret VMM_OK.

End Operations.

(** ** Ranges and the registry invariant *)

(** The half-open ranges [[base, end)] of two domains share no host IRQ
    number. *)
Definition ranges_disjoint (a b : vmm_host_irqdomain) : Prop :=
  forall x : Z, base a <= x < end_ a -> base b <= x < end_ b -> False.

(** Executable form of the negation of [ranges_disjoint]. *)
Definition ranges_overlap (a b : vmm_host_irqdomain) : bool :=
  Z.max (base a) (base b) <? Z.min (end_ a) (end_ b).

(** Any two distinct linked records have disjoint ranges. *)
Definition registry_disjoint (l : list (ptr * vmm_host_irqdomain)) : Prop :=
  forall (i j : nat) (pa pb : ptr) (a b : vmm_host_irqdomain),
    i <> j -> l !! i = Some (pa, a) -> l !! j = Some (pb, b) ->
    ranges_disjoint a b.

(** The record invariant [add] establishes: [end = base + count] in
    [unsigned int] arithmetic. *)
Definition end_is_base_plus_count (d : vmm_host_irqdomain) : Prop :=
  end_ d = to_uint (base d + count d).

(** [hirq] lies strictly between [base] and [end]. *)
Definition strictly_inside (d : vmm_host_irqdomain) (hirq : Z) : Prop :=
  base d < hirq < end_ d.

(** What the domain manager relies on when it asks the extended-IRQ
    allocator for a mapping: a number the allocator materializes has a live
    entry in the generic interrupt registry afterwards. *)
Definition create_makes_live {E : Type} {col : Collaborators E} : Prop :=
  forall (e e' : E) (n r : Z),
    vmm_host_irqext_create_mapping e n = (r, e') -> 0 <= r ->
    vmm_host_irq_get e' n = true.

(** One iteration of the disposal loop of [remove] seen from the
    allocator: the call is made and its result dropped. *)
Definition dispose_quietly {E : Type} {col : Collaborators E}
    (e : E) (irq : Z) : E :=
  snd (vmm_host_irqext_dispose_mapping e irq).

(** ** Sequences of add and remove *)

Inductive op : Type :=
  | OpAdd (of_node base size ops host_data : Z)
  | OpRemove (domain : option ptr).

Section Reachability.

Context {plat : Platform} {E : Type} {col : Collaborators E}.

Definition run_op (o : op) (w : world E) : option (world E) :=
  match o with
  | OpAdd of_node base size ops host_data =>
      Some (snd (vmm_host_irqdomain_add of_node base size ops host_data w))
  | OpRemove domain => vmm_host_irqdomain_remove domain w
  end.

(** Worlds reachable from [vmm_host_irqdomain_init] by operations that
    satisfy the guard [G]. *)
Inductive reachable_by (G : world E -> op -> world E -> Prop)
    : world E -> Prop :=
  | reach_init (w0 : world E) :
      reachable_by G (snd (vmm_host_irqdomain_init w0))
  | reach_step (w w' : world E) (o : op) :
      reachable_by G w -> run_op o w = Some w' -> G w o w' ->
      reachable_by G w'.

(** Any sequence of add and remove. *)
Definition reachable : world E -> Prop :=
  reachable_by (fun _ _ _ => True).

(** The guard under which ranges stay apart: a record that the operation
    links has a range disjoint from every record that was linked before. *)
Definition links_apart (w : world E) (o : op) (w' : world E) : Prop :=
  forall (p : ptr) (d : vmm_host_irqdomain),
    domains w' = domains w ++ [(p, d)] ->
    forall (q : ptr) (a : vmm_host_irqdomain),
      (q, a) ∈ domains w -> ranges_disjoint a d.

End Reachability.

(** ** A reference board *)

(** Modelled from the spec: the collaborators of section 6 (generic
    interrupt registry, extended-IRQ allocator, heap), which are not part of
    the sources at hand.  [get(n)] tells whether host IRQ [n] has a live
    entry; [create_mapping(n)] makes [n] live and returns it, or fails when
    [n] is beyond the number space; [dispose_mapping(n)] clears a live entry
    and fails on a missing one; [alloc_region(size)] hands out the next
    [size] free numbers; the heap hands out fresh addresses while it has
    room.  The board instantiates the interface for the concrete runs
    below. *)
Record board : Type := mk_board {
  live : list Z;
  irq_space : Z;
  next_region : Z;
  heap_left : nat;
  next_addr : ptr
}.

Definition is_live (b : board) (n : Z) : bool :=
  existsb (Z.eqb n) (live b).

Definition board_create_mapping (b : board) (n : Z) : Z * board :=
  if is_live b n then (n, b)
  else if n <? irq_space b
       then (n, mk_board (n :: live b) (irq_space b) (next_region b)
                         (heap_left b) (next_addr b))
       else (-1, b).

Definition board_dispose_mapping (b : board) (n : Z) : Z * board :=
  if is_live b n
  then (0, mk_board (List.filter (fun m => negb (Z.eqb n m)) (live b))
                    (irq_space b) (next_region b) (heap_left b) (next_addr b))
  else (-1, b).

Definition board_alloc_region (b : board) (size : Z) : Z * board :=
  if next_region b + size <=? irq_space b
  then (next_region b,
        mk_board (live b) (irq_space b) (next_region b + size)
                 (heap_left b) (next_addr b))
  else (-1, b).

Definition board_zalloc (b : board) : option ptr * board :=
  match heap_left b with
  | O => (None, b)
  | S n => (Some (next_addr b),
            mk_board (live b) (irq_space b) (next_region b) n
                     (Pos.succ (next_addr b)))
  end.

Definition board_free (b : board) (p : ptr) : board :=
  mk_board (live b) (irq_space b) (next_region b) (S (heap_left b))
           (next_addr b).

#[local] Instance board_collaborators : Collaborators board := {|
  vmm_host_irq_get := is_live;
  vmm_host_irqext_create_mapping := board_create_mapping;
  vmm_host_irqext_dispose_mapping := board_dispose_mapping;
  vmm_host_irqext_alloc_region := board_alloc_region;
  vmm_zalloc := board_zalloc;
  vmm_free := board_free
|}.

(** A platform with 1024 host IRQ numbers and the usual negative error
    code. *)
#[local] Instance board_platform : Platform := {|
  CONFIG_HOST_IRQ_COUNT := 1024;
  VMM_OK := 0;
  VMM_ENOTAVAIL := -3
|}.

(** A board with no live entry, room for extended IRQs up to 2048 and a
    heap with room for [n] records. *)
Definition fresh_board (n : nat) : board := mk_board [] 2048 1024 n 1%positive.

Definition boot (n : nat) : world board :=
  snd (vmm_host_irqdomain_init (mk_world [] (fresh_board n) [])).

(** The domain of the round-trip example: base 100, 8 lines. *)
Definition domain_100_8 : vmm_host_irqdomain := mk_domain 0 100 8 108 0 0.

(** A world with the domain at base 100 linked at address 1 and live
    entries at 100 and 101. *)
Definition one_domain_world : world board :=
  mk_world [(1%positive, domain_100_8)]
           (mk_board [100; 101] 2048 1024 0 2%positive) [].

(** Two overlapping explicit ranges, both accepted. *)
Definition overlapping_world : world board :=
  snd (vmm_host_irqdomain_add 0 100 8 0 0
         (snd (vmm_host_irqdomain_add 0 96 8 0 0
                 (snd (vmm_host_irqdomain_init
                         (mk_world [] (mk_board [100] 2048 1024 2 1%positive)
                                   [])))))).

(** Two ranges one after the other, linked one after the other. *)
Definition apart_world : world board :=
  snd (vmm_host_irqdomain_add 0 8 8 0 0
         (snd (vmm_host_irqdomain_add 0 0 8 0 0 (boot 2)))).

(** ** vmm_host_irqdomain_match *)

Section Match.

Context {E D : Type}.

(** The [list_for_each_entry] loop of [match]: the first record, in list
    order, on which the callback answers non-zero.  The callback gets the
    pointer, so it may look at the address and at the fields; it runs under
    the read lock and is taken not to change the registry. *)
Fixpoint match_domains (fn : ptr -> vmm_host_irqdomain -> D -> Z) (data : D)
    (l : list (ptr * vmm_host_irqdomain)) : option ptr :=
  match l with
  | [] => None
  | (p, domain) :: rest =>
      if fn p domain data =? 0 then match_domains fn data rest else Some p
  end.

Definition vmm_host_irqdomain_match
    (data : D) (fn : ptr -> vmm_host_irqdomain -> D -> Z)
    : M E (option ptr) :=
  fun w => ret (match_domains fn data (domains w)) w.

End Match.

(** The test of [vmm_host_irqdomain_get] as a callback for [match]. *)
Definition holds_strictly (p : ptr) (d : vmm_host_irqdomain) (hirq : Z) : Z :=
  if (hirq >? base d) && (hirq <? end_ d) then 1 else 0.

(** ** vmm_host_irqdomain_debug_dump *)

(** Modelled from the spec: the fields of [struct vmm_host_irq] that the
    dump reads ([num], [name] and the name of [chip], NULL when there is no
    chip); the structure is declared in [vmm_host_irq.h], which is not among
    the sources at hand.  Names are opaque handles. *)
Record irq_fields : Type := mk_irq_fields {
  irq_num : Z;
  irq_name : Z;
  irq_chip_name : option Z
}.

(** The record [vmm_host_irq_get(n)] points to, when it is not NULL. *)
Class HostIrqRecords (E : Type) : Type := {
  vmm_host_irq_fields : E -> Z -> irq_fields
}.

(** The lines [debug_dump] writes to the character device.  The group line
    and the mapped line print their numbers with [%d]; the warning is
    written without its argument, as in the source. *)
Inductive dump_line : Type :=
  | LineGroup (first last : Z)
  | LineWarning
  | LineMapped (idx : Z) (name : Z) (chip_name : option Z).

Section Dump.

Context {E : Type} {col : Collaborators E} {rec : HostIrqRecords E}.

(** [for (idx = domain->base; idx < domain->end; ++idx)] with [idx] an
    [int]: it is converted to [unsigned int] for the test, for the lookup
    and for the comparison with [irq->num]; the increment is taken to wrap
    around at [INT_MAX]. *)
Fixpoint dump_loop (fuel : nat) (e : E) (idx end' : Z) : list dump_line :=
  match fuel with
  | O => []
  | S fuel' =>
      if to_uint idx <? end' then
        (if vmm_host_irq_get e (to_uint idx) then
           let irq := vmm_host_irq_fields e (to_uint idx) in
           (if to_uint idx =? irq_num irq then [] else [LineWarning]) ++
           [LineMapped idx (irq_name irq) (irq_chip_name irq)]
         else []) ++
        dump_loop fuel' e (to_int (idx + 1)) end'
      else []
  end.

Fixpoint dump_domains (e : E) (l : list (ptr * vmm_host_irqdomain))
    : list dump_line :=
  match l with
  | [] => []
  | (_, domain) :: rest =>
      LineGroup (to_int (base domain)) (to_int (end_ domain)) ::
      dump_loop (Z.to_nat (end_ domain - base domain)) e
                (to_int (base domain)) (end_ domain) ++
      dump_domains e rest
  end.

(** What the dump writes; it changes nothing. *)
Definition vmm_host_irqdomain_debug_dump (w : world E) : list dump_line :=
  dump_domains (ext w) (domains w).

(** The lines of one host IRQ number: nothing when it has no entry, else
    the mapped line, after a warning when the entry records another
    number. *)
Definition lines_of (e : E) (x : Z) : list dump_line :=
  if vmm_host_irq_get e x then
    let irq := vmm_host_irq_fields e x in
    (if x =? irq_num irq then [] else [LineWarning]) ++
    [LineMapped (to_int x) (irq_name irq) (irq_chip_name irq)]
  else [].

End Dump.

(** ** Well-formed records and registries *)

(** A domain whose numbers are host IRQ numbers as the [int]-returning
    functions can report them: [end = base + count] without wrap-around and
    within [int]. *)
Definition domain_fits (d : vmm_host_irqdomain) : Prop :=
  0 <= base d /\ 0 <= count d /\ end_ d = base d + count d /\
  end_ d <= INT_MAX.

(** What [add] guarantees of every record it links. *)
Definition record_well_formed (d : vmm_host_irqdomain) : Prop :=
  is_uint (base d) /\ is_uint (end_ d) /\ end_is_base_plus_count d.

(** The guard under which addresses stay unique: the heap never hands out
    the address of a record that is still linked. *)
Definition links_fresh {E : Type} (w : world E) (o : op) (w' : world E)
    : Prop :=
  forall (p : ptr) (d : vmm_host_irqdomain),
    domains w' = domains w ++ [(p, d)] -> p ∉ (domains w).*1.

(** The board's records: every entry records its own number, except 77,
    which records 78. *)
#[local] Instance board_records : HostIrqRecords board := {|
  vmm_host_irq_fields := fun _ n =>
    mk_irq_fields (if n =? 77 then 78 else n) n None
|}.

(** Two domains one after the other, at base 100 and at base 108, with
    live entries at 101 and 108. *)
Definition two_domain_world : world board :=
  mk_world [(1%positive, domain_100_8);
            (2%positive, mk_domain 0 108 4 112 0 0)]
           (mk_board [101; 108] 2048 1024 1 3%positive) [].

(** * Properties *)

(** ** Machine integers *)

Lemma to_uint_id (z : Z) : is_uint z -> to_uint z = z.
Proof.
  unfold is_uint, UINT_MAX, to_uint. intros Hz.
  apply Z.mod_small. lia.
Qed.

Lemma to_int_nonneg (z : Z) : 0 <= z <= INT_MAX -> to_int z = z.
Proof.
  unfold INT_MAX, to_int. intros Hz.
  rewrite Z.mod_small by lia.
  destruct (Z.ltb_spec z (2 ^ 31)); lia.
Qed.

(** ** SBI capability constants *)

(** C8: the guest-visible SBI capability constants are major version 0,
    minor version 3 and implementation id 2. *)
Theorem sbi_capability_constants :
  CPU_VCPU_SBI_VERSION_MAJOR = 0 /\
  CPU_VCPU_SBI_VERSION_MINOR = 3 /\
  CPU_VCPU_SBI_IMPID = 2.
Proof. repeat split. Qed.

Section ToHwirq.

Context {plat : Platform}.

Lemma to_hwirq_in_range (domain : vmm_host_irqdomain) (hirq : Z) :
  is_uint hirq -> is_uint (base domain) ->
  base domain <= hirq <= end_ domain ->
  vmm_host_irqdomain_to_hwirq domain hirq = to_int (hirq - base domain).
Proof.
  intros Hh Hb [Hlo Hhi]. unfold vmm_host_irqdomain_to_hwirq.
  destruct (Z.ltb_spec hirq (base domain)) as [Hlt|_]; [lia|].
  destruct (Z.gtb_spec hirq (end_ domain)) as [Hgt|_]; [lia|]. simpl.
  rewrite to_uint_id; [reflexivity|].
  unfold is_uint in *. lia.
Qed.

Lemma to_hwirq_out_of_range (domain : vmm_host_irqdomain) (hirq : Z) :
  hirq < base domain \/ hirq > end_ domain ->
  vmm_host_irqdomain_to_hwirq domain hirq = VMM_ENOTAVAIL.
Proof.
  intros Hout. unfold vmm_host_irqdomain_to_hwirq.
  destruct (Z.ltb_spec hirq (base domain)) as [Hlt|Hge]; [reflexivity|].
  destruct (Z.gtb_spec hirq (end_ domain)) as [Hgt|Hle]; [reflexivity|].
  lia.
Qed.

(** C1: for every [hirq] with [base <= hirq <= end] (upper bound included)
    [vmm_host_irqdomain_to_hwirq] returns [hirq - base] -- the unsigned
    difference as the [int] the function returns, which is the number
    [hirq - base] whenever that fits an [int] -- and it returns
    [VMM_ENOTAVAIL] for every [hirq < base] and every [hirq > end].  For the
    domain with base 100 and 8 lines it returns [k] for [hirq = 100 + k],
    [0 <= k <= 8], and [VMM_ENOTAVAIL] for [k = 9] and for every [hirq]
    below 100. *)
Theorem to_hwirq_inclusive_bounds :
  (forall (domain : vmm_host_irqdomain) (hirq : Z),
     is_uint hirq -> is_uint (base domain) -> is_uint (end_ domain) ->
     (base domain <= hirq <= end_ domain ->
        vmm_host_irqdomain_to_hwirq domain hirq = to_int (hirq - base domain) /\
        (hirq - base domain <= INT_MAX ->
         vmm_host_irqdomain_to_hwirq domain hirq = hirq - base domain)) /\
     (hirq < base domain \/ hirq > end_ domain ->
        vmm_host_irqdomain_to_hwirq domain hirq = VMM_ENOTAVAIL)) /\
  (forall k : Z, 0 <= k <= 8 ->
     vmm_host_irqdomain_to_hwirq domain_100_8 (100 + k) = k) /\
  vmm_host_irqdomain_to_hwirq domain_100_8 (100 + 9) = VMM_ENOTAVAIL /\
  (forall hirq : Z, hirq < 100 ->
     vmm_host_irqdomain_to_hwirq domain_100_8 hirq = VMM_ENOTAVAIL).
Proof.
  split; [|split; [|split]].
  - intros domain hirq Hh Hb He. split.
    + intros Hin. split.
      * apply to_hwirq_in_range; assumption.
      * intros Hfit. rewrite to_hwirq_in_range by assumption.
        apply to_int_nonneg. lia.
    + apply to_hwirq_out_of_range.
  - intros k Hk.
    rewrite to_hwirq_in_range.
    + change (base domain_100_8) with 100.
      replace (100 + k - 100) with k by lia.
      apply to_int_nonneg. unfold INT_MAX. lia.
    + unfold is_uint, UINT_MAX. lia.
    + unfold is_uint, UINT_MAX. simpl. lia.
    + simpl. lia.
  - apply to_hwirq_out_of_range. simpl. lia.
  - intros hirq Hlt. apply to_hwirq_out_of_range. simpl. lia.
Qed.

End ToHwirq.

Section FindAndGet.

Context {plat : Platform} {E : Type} {col : Collaborators E}.

(** ** vmm_host_irqdomain_find_mapping *)

Lemma find_mapping_out_of_bounds (e : E) (d : vmm_host_irqdomain) (hwirq : Z) :
  hwirq > count d -> vmm_host_irqdomain_find_mapping e d hwirq = -1.
Proof.
  intros Hgt. unfold vmm_host_irqdomain_find_mapping.
  destruct (Z.gtb_spec hwirq (count d)); [reflexivity | lia].
Qed.

Lemma find_mapping_in_bounds (e : E) (d : vmm_host_irqdomain) (hwirq : Z) :
  hwirq <= count d ->
  vmm_host_irqdomain_find_mapping e d hwirq =
    if vmm_host_irq_get e (to_uint (base d + hwirq))
    then to_int (to_uint (base d + hwirq)) else -1.
Proof.
  intros Hle. unfold vmm_host_irqdomain_find_mapping.
  destruct (Z.gtb_spec hwirq (count d)); [lia | reflexivity].
Qed.

(** The host IRQ number [base + hwirq] as [find_mapping] and
    [create_mapping] return it, when it fits an [int]. *)
Lemma hirq_fits (b hwirq : Z) :
  0 <= b -> 0 <= hwirq -> b + hwirq <= INT_MAX ->
  to_int (to_uint (b + hwirq)) = b + hwirq.
Proof.
  intros Hb Hh Hfit. rewrite to_uint_id.
  - apply to_int_nonneg. lia.
  - unfold is_uint, UINT_MAX. unfold INT_MAX in Hfit. lia.
Qed.

(** C3, as the code has it: [vmm_host_irqdomain_find_mapping] returns -1
    for every [hwirq > count]; otherwise it returns [base + hwirq] when the
    generic interrupt registry has a live entry at that number, and -1 when
    it has none.  The two failures are the same value. *)
Theorem find_mapping_outcomes
    (e : E) (d : vmm_host_irqdomain) (hwirq : Z) :
  is_uint (base d) -> is_uint hwirq ->
  (hwirq > count d -> vmm_host_irqdomain_find_mapping e d hwirq = -1) /\
  (hwirq <= count d ->
     vmm_host_irq_get e (to_uint (base d + hwirq)) = true ->
     vmm_host_irqdomain_find_mapping e d hwirq
       = to_int (to_uint (base d + hwirq)) /\
     (base d + hwirq <= INT_MAX ->
      vmm_host_irqdomain_find_mapping e d hwirq = base d + hwirq)) /\
  (hwirq <= count d ->
     vmm_host_irq_get e (to_uint (base d + hwirq)) = false ->
     vmm_host_irqdomain_find_mapping e d hwirq = -1).
Proof.
  intros Hb Hh. split; [|split].
  - apply find_mapping_out_of_bounds.
  - intros Hle Hlive. rewrite find_mapping_in_bounds by assumption.
    rewrite Hlive. split; [reflexivity|].
    intros Hfit. unfold is_uint in *. apply hirq_fits; lia.
  - intros Hle Hdead. rewrite find_mapping_in_bounds by assumption.
    rewrite Hdead. reflexivity.
Qed.

(** ** vmm_host_irqdomain_get *)

Lemma strictly_inside_test (d : vmm_host_irqdomain) (hirq : Z) :
  (hirq >? base d) && (hirq <? end_ d) = true <-> strictly_inside d hirq.
Proof.
  unfold strictly_inside. rewrite andb_true_iff.
  rewrite Z.gtb_ltb, !Z.ltb_lt. tauto.
Qed.

Lemma scan_domains_found (l : list (ptr * vmm_host_irqdomain)) (hirq : Z)
    (p : ptr) :
  scan_domains l hirq = Some p ->
  exists (i : nat) (d : vmm_host_irqdomain),
    l !! i = Some (p, d) /\ strictly_inside d hirq /\
    forall (j : nat) (q : ptr) (d' : vmm_host_irqdomain),
      (j < i)%nat -> l !! j = Some (q, d') -> ~ strictly_inside d' hirq.
Proof.
  induction l as [|[q0 d0] rest IH]; simpl; [discriminate|].
  destruct ((hirq >? base d0) && (hirq <? end_ d0)) eqn:Htest.
  - intros [= <-]. exists O, d0. split; [reflexivity|]. split.
    + apply strictly_inside_test, Htest.
    + intros j q d' Hj. lia.
  - intros Hrest. destruct (IH Hrest) as (i & d & Hi & Hin & Hfirst).
    exists (S i), d. split; [exact Hi|]. split; [exact Hin|].
    intros [|j] q d' Hj Hlook.
    + simpl in Hlook. injection Hlook as <- <-.
      rewrite <- strictly_inside_test, Htest. discriminate.
    + simpl in Hlook. apply (Hfirst j q d'); [lia | exact Hlook].
Qed.

Lemma scan_domains_none (l : list (ptr * vmm_host_irqdomain)) (hirq : Z) :
  scan_domains l hirq = None <->
  forall (q : ptr) (d : vmm_host_irqdomain),
    (q, d) ∈ l -> ~ strictly_inside d hirq.
Proof.
  induction l as [|[q0 d0] rest IH]; simpl.
  - split; [|reflexivity]. intros _ q d Hin. inversion Hin.
  - destruct ((hirq >? base d0) && (hirq <? end_ d0)) eqn:Htest.
    + split; [discriminate|]. intros Hall. exfalso.
      apply (Hall q0 d0); [left | apply strictly_inside_test, Htest].
    + rewrite IH. split.
      * intros Hall q d Hin. apply elem_of_cons in Hin as [[= -> ->]|Hin].
        -- rewrite <- strictly_inside_test, Htest. discriminate.
        -- apply (Hall q d Hin).
      * intros Hall q d Hin. apply (Hall q d). right. exact Hin.
Qed.

(** C4: [vmm_host_irqdomain_get] returns the first domain, in registry
    order, with [base < hirq < end] (both ends excluded), and leaves the
    world as it was; when no linked domain satisfies this it returns NULL
    after printing its diagnostic. *)
Theorem get_first_strictly_inside (w : world E) (hirq : Z) :
  match vmm_host_irqdomain_get hirq w with
  | (Some p, w') =>
      w' = w /\
      exists (i : nat) (d : vmm_host_irqdomain),
        domains w !! i = Some (p, d) /\
        base d < hirq < end_ d /\
        forall (j : nat) (q : ptr) (d' : vmm_host_irqdomain),
          (j < i)%nat -> domains w !! j = Some (q, d') ->
          ~ (base d' < hirq < end_ d')
  | (None, w') =>
      (forall (q : ptr) (d : vmm_host_irqdomain),
         (q, d) ∈ domains w -> ~ (base d < hirq < end_ d)) /\
      domains w' = domains w /\ ext w' = ext w /\
      trace w' = trace w ++ [EvPrintf]
  end.
Proof.
  unfold vmm_host_irqdomain_get.
  destruct (scan_domains (domains w) hirq) as [p|] eqn:Hscan.
  - simpl. split; [reflexivity|]. apply scan_domains_found, Hscan.
  - simpl. split; [|repeat split].
    apply scan_domains_none, Hscan.
Qed.

End FindAndGet.

(** C3 as stated fails: on a board with no live entry, the out-of-bounds
    index 9 and the unmapped in-bounds index 0 of the domain with base 100
    and 8 lines are reported with the same value. *)
Lemma find_mapping_one_sentinel :
  (9 > count domain_100_8 /\
   0 <= 0 <= count domain_100_8 /\
   vmm_host_irq_get (fresh_board 0) (to_uint (base domain_100_8 + 0)) = false /\
   vmm_host_irqdomain_find_mapping (fresh_board 0) domain_100_8 9 = -1 /\
   vmm_host_irqdomain_find_mapping (fresh_board 0) domain_100_8 0 = -1) /\
  ~ (forall (e : board) (d : vmm_host_irqdomain) (h_out h_in : Z),
       h_out > count d -> 0 <= h_in <= count d ->
       vmm_host_irq_get e (to_uint (base d + h_in)) = false ->
       vmm_host_irqdomain_find_mapping e d h_out
         <> vmm_host_irqdomain_find_mapping e d h_in).
Proof.
  assert (Hout : 9 > count domain_100_8) by (simpl; lia).
  assert (Hin : 0 <= 0 <= count domain_100_8) by (simpl; lia).
  split.
  - split; [exact Hout|]. split; [exact Hin|]. repeat split.
  - intros Hclaim.
    apply (Hclaim (fresh_board 0) domain_100_8 9 0 Hout Hin); reflexivity.
Qed.

Section Mappings.

Context {plat : Platform} {E : Type} {col : Collaborators E}.

(** ** vmm_host_irqdomain_create_mapping *)

Lemma create_mapping_out_of_bounds
    (w : world E) (d : vmm_host_irqdomain) (hwirq : Z) :
  hwirq > count d ->
  vmm_host_irqdomain_create_mapping (Some d) hwirq w = (VMM_ENOTAVAIL, w).
Proof.
  intros Hgt. unfold vmm_host_irqdomain_create_mapping.
  destruct (Z.gtb_spec hwirq (count d)); [reflexivity | lia].
Qed.

(** A mapping that [find_mapping] reports is returned as it is: no call
    leaves the file. *)
Lemma create_mapping_existing
    (w : world E) (d : vmm_host_irqdomain) (hwirq : Z) :
  hwirq <= count d ->
  0 <= vmm_host_irqdomain_find_mapping (ext w) d hwirq ->
  vmm_host_irqdomain_create_mapping (Some d) hwirq w
    = (vmm_host_irqdomain_find_mapping (ext w) d hwirq, w).
Proof.
  intros Hle Hfound. unfold vmm_host_irqdomain_create_mapping.
  destruct (Z.gtb_spec hwirq (count d)); [lia|].
  destruct (Z.geb_spec (vmm_host_irqdomain_find_mapping (ext w) d hwirq) 0);
    [reflexivity | lia].
Qed.

(** Without a reported mapping the allocator is asked for
    [base + hwirq]. *)
Lemma create_mapping_fresh
    (w : world E) (d : vmm_host_irqdomain) (hwirq : Z) :
  hwirq <= count d ->
  vmm_host_irqdomain_find_mapping (ext w) d hwirq < 0 ->
  vmm_host_irqdomain_create_mapping (Some d) hwirq w =
    let hirq := to_uint (base d + hwirq) in
    let (r, e') := vmm_host_irqext_create_mapping (ext w) hirq in
    (if r <? 0 then r else to_int hirq,
     mk_world (domains w) e' (trace w ++ [EvCreateMapping hirq])).
Proof.
  intros Hle Hnone. unfold vmm_host_irqdomain_create_mapping.
  destruct (Z.gtb_spec hwirq (count d)); [lia|].
  destruct (Z.geb_spec (vmm_host_irqdomain_find_mapping (ext w) d hwirq) 0);
    [lia|].
  unfold bind, irqext_create_mapping, call, ret. simpl.
  destruct (vmm_host_irqext_create_mapping (ext w) (to_uint (base d + hwirq)));
    reflexivity.
Qed.

(** C5: two calls of [vmm_host_irqdomain_create_mapping] for the same
    domain and in-bounds [hwirq], with nothing in between, return the same
    host IRQ number, and the second call leaves the world as it is; a
    mapping that already exists (one [find_mapping] reports) is returned
    without a call to the extended-IRQ allocator.  The allocator is taken
    to make the number it materializes live in the generic registry. *)
Theorem create_mapping_idempotent
    (w : world E) (d : vmm_host_irqdomain) (hwirq : Z) :
  create_makes_live ->
  hwirq <= count d ->
  (forall (hirq : Z) (w1 : world E),
     vmm_host_irqdomain_create_mapping (Some d) hwirq w = (hirq, w1) ->
     0 <= hirq ->
     vmm_host_irqdomain_create_mapping (Some d) hwirq w1 = (hirq, w1)) /\
  (0 <= vmm_host_irqdomain_find_mapping (ext w) d hwirq ->
     vmm_host_irqdomain_create_mapping (Some d) hwirq w
       = (vmm_host_irqdomain_find_mapping (ext w) d hwirq, w) /\
     trace (snd (vmm_host_irqdomain_create_mapping (Some d) hwirq w))
       = trace w).
Proof.
  intros Hlive Hle. split.
  - intros hirq w1 Hfirst Hok.
    destruct (Z.lt_ge_cases
                (vmm_host_irqdomain_find_mapping (ext w) d hwirq) 0)
      as [Hnone|Hfound].
    + rewrite create_mapping_fresh in Hfirst by assumption. simpl in Hfirst.
      destruct (vmm_host_irqext_create_mapping
                  (ext w) (to_uint (base d + hwirq))) as [r e'] eqn:Hcall.
      injection Hfirst as Hres Hw1.
      destruct (Z.ltb_spec r 0) as [Hneg|Hpos]; [lia|].
      assert (Hnow : vmm_host_irqdomain_find_mapping (ext w1) d hwirq = hirq).
      { rewrite find_mapping_in_bounds by assumption.
        rewrite <- Hw1. simpl.
        rewrite (Hlive _ _ _ _ Hcall Hpos). exact Hres. }
      rewrite create_mapping_existing by (rewrite ?Hnow; assumption).
      rewrite Hnow. reflexivity.
    + rewrite create_mapping_existing in Hfirst by assumption.
      injection Hfirst as Hres Hw1. subst w1.
      rewrite create_mapping_existing by assumption.
      rewrite Hres. reflexivity.
  - intros Hfound.
    rewrite create_mapping_existing by assumption. split; reflexivity.
Qed.

(** C10: the bound checks of [create_mapping] and [find_mapping] reject
    only [hwirq > count].  [hwirq = count] passes both: [find_mapping]
    answers from the registry entry at [base + count], and [create_mapping],
    when no mapping is reported there, asks the allocator to materialize
    host IRQ [base + count] and returns that number when the allocator
    succeeds.  This number is [end], which is outside [[base, end)]. *)
Theorem create_mapping_accepts_count
    (w : world E) (d : vmm_host_irqdomain) :
  end_is_base_plus_count d ->
  (forall hwirq : Z, hwirq > count d ->
     vmm_host_irqdomain_create_mapping (Some d) hwirq w = (VMM_ENOTAVAIL, w) /\
     vmm_host_irqdomain_find_mapping (ext w) d hwirq = -1) /\
  (forall hwirq : Z, hwirq <= count d ->
     vmm_host_irqdomain_find_mapping (ext w) d hwirq =
       if vmm_host_irq_get (ext w) (to_uint (base d + hwirq))
       then to_int (to_uint (base d + hwirq)) else -1) /\
  (vmm_host_irq_get (ext w) (end_ d) = true ->
     vmm_host_irqdomain_find_mapping (ext w) d (count d) = to_int (end_ d)) /\
  (vmm_host_irqdomain_find_mapping (ext w) d (count d) < 0 ->
     vmm_host_irqdomain_create_mapping (Some d) (count d) w =
       let (r, e') := vmm_host_irqext_create_mapping (ext w) (end_ d) in
       (if r <? 0 then r else to_int (end_ d),
        mk_world (domains w) e' (trace w ++ [EvCreateMapping (end_ d)]))) /\
  ~ (base d <= end_ d < end_ d).
Proof.
  intros Hend. unfold end_is_base_plus_count in Hend.
  split; [|split; [|split; [|split]]].
  - intros hwirq Hgt. split.
    + apply create_mapping_out_of_bounds, Hgt.
    + apply find_mapping_out_of_bounds, Hgt.
  - intros hwirq Hle. apply find_mapping_in_bounds, Hle.
  - intros Hlive. rewrite find_mapping_in_bounds by lia.
    rewrite <- Hend, Hlive. reflexivity.
  - intros Hnone. rewrite create_mapping_fresh by (assumption || lia).
    simpl. rewrite <- Hend. reflexivity.
  - lia.
Qed.

(** ** vmm_host_irqdomain_dispose_mapping *)

Lemma dispose_mapping_no_domain (w : world E) (hirq : Z) :
  scan_domains (domains w) hirq = None ->
  vmm_host_irqdomain_dispose_mapping hirq w
    = (VMM_ENOTAVAIL, mk_world (domains w) (ext w) (trace w ++ [EvPrintf])).
Proof.
  intros Hscan.
  unfold vmm_host_irqdomain_dispose_mapping, bind, vmm_host_irqdomain_get.
  rewrite Hscan. reflexivity.
Qed.

Lemma dispose_mapping_owned (w : world E) (hirq : Z) (p : ptr) :
  scan_domains (domains w) hirq = Some p ->
  vmm_host_irqdomain_dispose_mapping hirq w =
    let (r, e') := vmm_host_irqext_dispose_mapping (ext w) hirq in
    (r, mk_world (domains w) e' (trace w ++ [EvDisposeMapping hirq])).
Proof.
  intros Hscan.
  unfold vmm_host_irqdomain_dispose_mapping, bind, vmm_host_irqdomain_get.
  rewrite Hscan. reflexivity.
Qed.

(** C9, as the code has it: when the ranges of the linked domains are
    pairwise disjoint, [vmm_host_irqdomain_dispose_mapping (base)] of a
    linked, non-empty domain returns [VMM_ENOTAVAIL], whatever is mapped at
    [base]: the lookup excludes [hirq = base], the allocator is not called
    and only the diagnostic is printed. *)
Theorem dispose_mapping_at_base
    (w : world E) (p : ptr) (d : vmm_host_irqdomain) :
  (p, d) ∈ domains w ->
  registry_disjoint (domains w) ->
  base d < end_ d ->
  vmm_host_irqdomain_dispose_mapping (base d) w
    = (VMM_ENOTAVAIL, mk_world (domains w) (ext w) (trace w ++ [EvPrintf])).
Proof.
  intros Hin Hdisj Hnonempty. apply dispose_mapping_no_domain.
  apply scan_domains_none. intros q d' Hin' [Hlo Hhi].
  apply list_elem_of_lookup in Hin as [i Hi].
  apply list_elem_of_lookup in Hin' as [j Hj].
  destruct (decide (i = j)) as [->|Hne].
  - rewrite Hi in Hj. injection Hj as _ <-. lia.
  - apply (Hdisj i j p q d d' Hne Hi Hj (base d)); lia.
Qed.

End Mappings.

Section Remove.

Context {plat : Platform} {E : Type} {col : Collaborators E}.

(** ** vmm_host_irqdomain_remove *)

Lemma world_eta (w : world E) : mk_world (domains w) (ext w) (trace w) = w.
Proof. destruct w; reflexivity. Qed.

(** The disposal loop visits [pos, pos + 1, ..., end - 1] in this order,
    whatever the calls return, and stops by its own test. *)
Lemma dispose_loop_visits (n : nat) :
  forall (pos end' : Z) (w : world E),
    0 <= pos -> end' <= UINT_MAX -> n = Z.to_nat (end' - pos) ->
    dispose_loop n pos end' w =
      (tt, mk_world (domains w)
             (fold_left dispose_quietly (seqZ pos (end' - pos)) (ext w))
             (trace w ++ map EvDisposeMapping (seqZ pos (end' - pos)))).
Proof.
  induction n as [|n IH]; intros pos end' w Hpos Hend Hfuel.
  - rewrite seqZ_nil by lia. simpl. unfold ret.
    rewrite app_nil_r, world_eta. reflexivity.
  - assert (Hlt : pos < end') by lia.
    rewrite seqZ_cons by lia. simpl.
    destruct (Z.ltb_spec pos end') as [_|Hge]; [|lia].
    unfold bind at 1. unfold irqext_dispose_mapping, call.
    unfold dispose_quietly at 2.
    destruct (vmm_host_irqext_dispose_mapping (ext w) pos) as [r e'].
    rewrite to_uint_id by (unfold is_uint; lia).
    rewrite IH by (simpl; lia). simpl.
    replace (Z.pred (end' - pos)) with (end' - (pos + 1)) by lia.
    replace (Z.succ pos) with (pos + 1) by lia.
    rewrite <- app_assoc. reflexivity.
Qed.

Lemma registry_unlink (p : ptr) (d : vmm_host_irqdomain)
    (l1 l2 : list (ptr * vmm_host_irqdomain)) :
  p ∉ l1.*1 ->
  record_at p (l1 ++ (p, d) :: l2) = Some d /\
  list_del p (l1 ++ (p, d) :: l2) = l1 ++ l2.
Proof.
  induction l1 as [|[q a] l1 IH]; simpl; intros Hfresh.
  - destruct (decide (p = p)); [split; reflexivity | contradiction].
  - apply not_elem_of_cons in Hfresh as [Hne Hfresh].
    destruct (decide (q = p)) as [->|_]; [contradiction|].
    destruct (IH Hfresh) as [-> ->]. split; reflexivity.
Qed.

Lemma registry_linked (p : ptr) (d : vmm_host_irqdomain)
    (l : list (ptr * vmm_host_irqdomain)) :
  record_at p l = Some d ->
  exists l1 l2 : list (ptr * vmm_host_irqdomain),
    l = l1 ++ (p, d) :: l2 /\ (p ∉ l1.*1).
Proof.
  induction l as [|[q a] l IH]; simpl; [discriminate|].
  destruct (decide (q = p)) as [->|Hne].
  - intros [= ->]. exists [], l. split; [reflexivity|]. apply not_elem_of_nil.
  - intros Hrec. destruct (IH Hrec) as (l1 & l2 & -> & Hfresh).
    exists ((q, a) :: l1), l2. split; [reflexivity|].
    simpl. apply not_elem_of_cons. split; [congruence | exact Hfresh].
Qed.

(** C7: [vmm_host_irqdomain_remove] does nothing on NULL.  On a linked
    domain it unlinks the record, then calls the external disposal for every
    host IRQ number of [[base, end)], in increasing order and whatever the
    single calls return, and finally frees the record. *)
Theorem remove_unlinks_disposes_frees (w : world E) :
  vmm_host_irqdomain_remove None w = Some w /\
  forall (p : ptr) (d : vmm_host_irqdomain)
         (l1 l2 : list (ptr * vmm_host_irqdomain)),
    domains w = l1 ++ (p, d) :: l2 -> p ∉ l1.*1 ->
    is_uint (base d) -> is_uint (end_ d) ->
    let irqs := seqZ (base d) (end_ d - base d) in
    (forall x : Z, x ∈ irqs <-> base d <= x < end_ d) /\
    vmm_host_irqdomain_remove (Some p) w =
      Some (mk_world (l1 ++ l2)
              (vmm_free (fold_left dispose_quietly irqs (ext w)) p)
              (trace w ++ map EvDisposeMapping irqs ++ [EvFree p])).
Proof.
  split; [reflexivity|].
  intros p d l1 l2 Hlinked Hfresh Hb He irqs. split.
  - intros x. unfold irqs. rewrite elem_of_seqZ. lia.
  - unfold vmm_host_irqdomain_remove. rewrite Hlinked.
    destruct (registry_unlink p d l1 l2 Hfresh) as [-> ->].
    unfold bind at 1. unfold set_domains at 1.
    unfold bind at 1.
    rewrite dispose_loop_visits;
      [| unfold is_uint in Hb; lia | unfold is_uint in He; lia | reflexivity].
    unfold free, call. simpl. rewrite <- app_assoc. reflexivity.
Qed.

End Remove.

Section Add.

Context {plat : Platform} {E : Type} {col : Collaborators E}.

(** ** vmm_host_irqdomain_add *)

Lemma add_rejected (w : world E) (of_node base size ops host_data : Z) :
  beyond_capacity base size = true ->
  vmm_host_irqdomain_add of_node base size ops host_data w = (None, w).
Proof.
  intros Hguard. unfold vmm_host_irqdomain_add. rewrite Hguard. reflexivity.
Qed.

Lemma add_out_of_memory
    (w : world E) (of_node base size ops host_data : Z) (e1 : E) :
  beyond_capacity base size = false ->
  vmm_zalloc (ext w) = (None, e1) ->
  vmm_host_irqdomain_add of_node base size ops host_data w
    = (None, mk_world (domains w) e1 (trace w ++ [EvZalloc])).
Proof.
  intros Hguard Hheap. unfold vmm_host_irqdomain_add. rewrite Hguard.
  unfold bind, zalloc, call. rewrite Hheap. reflexivity.
Qed.

Lemma add_explicit_base
    (w : world E) (of_node base size ops host_data : Z) (p : ptr) (e1 : E) :
  beyond_capacity base size = false -> 0 <= base ->
  vmm_zalloc (ext w) = (Some p, e1) ->
  vmm_host_irqdomain_add of_node base size ops host_data w
    = (Some p,
       mk_world (domains w ++
                   [(p, mk_domain of_node (to_uint base) size
                                  (to_uint (to_uint base + size))
                                  host_data ops)])
                e1 (trace w ++ [EvZalloc])).
Proof.
  intros Hguard Hbase Hheap. unfold vmm_host_irqdomain_add. rewrite Hguard.
  unfold bind, zalloc, call. rewrite Hheap.
  destruct (Z.ltb_spec base 0); [lia|]. reflexivity.
Qed.

Lemma add_auto_base
    (w : world E) (of_node base size ops host_data : Z)
    (p : ptr) (e1 e2 : E) (pos : Z) :
  base < 0 ->
  vmm_zalloc (ext w) = (Some p, e1) ->
  vmm_host_irqext_alloc_region e1 size = (pos, e2) ->
  vmm_host_irqdomain_add of_node base size ops host_data w =
    if pos <? 0
    then (None,
          mk_world (domains w) (vmm_free e2 p)
                   (trace w ++
                      [EvZalloc; EvAllocRegion size; EvPrintf; EvFree p]))
    else (Some p,
          mk_world (domains w ++
                      [(p, mk_domain of_node (to_uint pos) size
                                     (to_uint (to_uint pos + size))
                                     host_data ops)])
                   e2 (trace w ++ [EvZalloc; EvAllocRegion size])).
Proof.
  intros Hbase Hheap Hregion.
  unfold vmm_host_irqdomain_add, beyond_capacity.
  destruct (Z.geb_spec base 0); [lia|]. simpl.
  unfold bind, zalloc, call. rewrite Hheap.
  destruct (Z.ltb_spec base 0); [|lia].
  unfold irqext_alloc_region, call. simpl. rewrite Hregion.
  destruct (pos <? 0); simpl; rewrite <- ?app_assoc; reflexivity.
Qed.

(** Without wrap-around the guard is [CONFIG_HOST_IRQ_COUNT <= base + size]. *)
Lemma beyond_capacity_plain (base size : Z) :
  0 <= CONFIG_HOST_IRQ_COUNT <= INT_MAX ->
  0 <= base -> 0 <= size -> base + size <= UINT_MAX ->
  beyond_capacity base size = true <->
  CONFIG_HOST_IRQ_COUNT <= base \/ CONFIG_HOST_IRQ_COUNT <= base + size.
Proof.
  intros Hcfg Hbase Hsize Hfit. unfold beyond_capacity.
  rewrite !to_uint_id
    by (unfold is_uint, UINT_MAX, INT_MAX in *; lia).
  rewrite andb_true_iff, orb_true_iff, !Z.leb_le, Z.geb_le. lia.
Qed.

(** The registry after [add]: as before, or with one record more at the
    tail. *)
Lemma add_domains (w : world E) (of_node base size ops host_data : Z) :
  let res := vmm_host_irqdomain_add of_node base size ops host_data w in
  (fst res = None /\ domains (snd res) = domains w) \/
  (exists (p : ptr) (d : vmm_host_irqdomain),
     fst res = Some p /\ domains (snd res) = domains w ++ [(p, d)]).
Proof.
  simpl. destruct (beyond_capacity base size) eqn:Hguard.
  - left. rewrite add_rejected by assumption. split; reflexivity.
  - destruct (vmm_zalloc (ext w)) as [[p|] e1] eqn:Hheap.
    + destruct (Z.lt_ge_cases base 0) as [Hneg|Hpos].
      * destruct (vmm_host_irqext_alloc_region e1 size) as [pos e2] eqn:Hreg.
        rewrite (add_auto_base w _ _ _ _ _ p e1 e2 pos) by assumption.
        destruct (pos <? 0).
        -- left. split; reflexivity.
        -- right. eexists _, _. split; reflexivity.
      * right. rewrite (add_explicit_base w _ _ _ _ _ p e1) by assumption.
        eexists _, _. split; reflexivity.
    + left. rewrite (add_out_of_memory w _ _ _ _ _ e1) by assumption.
      split; reflexivity.
Qed.

(** C6, as the code has it.  With [base >= 0] (and [base + size] within
    [unsigned int]) [vmm_host_irqdomain_add] fails, leaving the registry
    unchanged, exactly when [CONFIG_HOST_IRQ_COUNT <= base], or
    [CONFIG_HOST_IRQ_COUNT <= base + size] -- a range that ends at the
    capacity is rejected as well -- or the heap has no record to give.  With
    [base < 0] it asks the external allocator for a region of width [size];
    when that fails it prints a diagnostic, frees the new record and fails.
    On success the record, with [end = base + size], is linked at the tail
    of the registry and returned. *)
Theorem add_outcomes (w : world E) (of_node base size ops host_data : Z) :
  0 <= CONFIG_HOST_IRQ_COUNT <= INT_MAX ->
  is_uint size ->
  let res := vmm_host_irqdomain_add of_node base size ops host_data w in
  (0 <= base -> base + size <= UINT_MAX ->
     (fst res = None <->
        CONFIG_HOST_IRQ_COUNT <= base \/
        CONFIG_HOST_IRQ_COUNT <= base + size \/
        fst (vmm_zalloc (ext w)) = None) /\
     (fst res = None -> domains (snd res) = domains w) /\
     (forall p : ptr, fst res = Some p ->
        fst (vmm_zalloc (ext w)) = Some p /\
        domains (snd res) =
          domains w ++
            [(p, mk_domain of_node base size (base + size) host_data ops)])) /\
  (base < 0 ->
     (fst (vmm_zalloc (ext w)) = None ->
        fst res = None /\ domains (snd res) = domains w) /\
     (forall (p : ptr) (e1 e2 : E) (pos : Z),
        vmm_zalloc (ext w) = (Some p, e1) ->
        vmm_host_irqext_alloc_region e1 size = (pos, e2) ->
        (pos < 0 ->
           res = (None,
                  mk_world (domains w) (vmm_free e2 p)
                    (trace w ++
                       [EvZalloc; EvAllocRegion size; EvPrintf; EvFree p]))) /\
        (0 <= pos -> pos + size <= UINT_MAX ->
           res = (Some p,
                  mk_world
                    (domains w ++
                       [(p, mk_domain of_node pos size (pos + size)
                                      host_data ops)])
                    e2 (trace w ++ [EvZalloc; EvAllocRegion size]))))).
Proof.
  intros Hcfg Hsize res. unfold is_uint in Hsize. split.
  - intros Hbase Hfit.
    pose proof (beyond_capacity_plain base size Hcfg Hbase
                  (proj1 Hsize) Hfit) as Hguard.
    assert (Hb : to_uint base = base)
      by (apply to_uint_id; unfold is_uint; lia).
    assert (He : to_uint (base + size) = base + size)
      by (apply to_uint_id; unfold is_uint; lia).
    subst res.
    destruct (beyond_capacity base size) eqn:Hbeyond.
    + rewrite add_rejected by assumption. simpl.
      split; [|split]; [|reflexivity|discriminate].
      split; [intros _|reflexivity].
      destruct (proj1 Hguard eq_refl); [left|right; left]; assumption.
    + assert (Hin : ~ (CONFIG_HOST_IRQ_COUNT <= base \/
                       CONFIG_HOST_IRQ_COUNT <= base + size)).
      { intros Hout. apply Hguard in Hout. discriminate. }
      destruct (vmm_zalloc (ext w)) as [[p|] e1] eqn:Hheap.
      * rewrite (add_explicit_base w _ _ _ _ _ p e1) by assumption.
        simpl. rewrite Hb, He. split; [|split].
        -- split; [discriminate|]. intros [?|[?|?]]; [lia|lia|discriminate].
        -- discriminate.
        -- intros q [= <-]. split; reflexivity.
      * rewrite (add_out_of_memory w _ _ _ _ _ e1) by assumption.
        simpl. split; [|split]; [|reflexivity|discriminate].
        split; [intros _|reflexivity]. right; right; reflexivity.
  - intros Hneg. split.
    + intros Hheap.
      destruct (vmm_zalloc (ext w)) as [[p|] e1] eqn:Hz; [discriminate|].
      subst res. rewrite (add_out_of_memory w _ _ _ _ _ e1).
      * split; reflexivity.
      * unfold beyond_capacity. destruct (Z.geb_spec base 0); [lia|reflexivity].
      * assumption.
    + intros p e1 e2 pos Hheap Hregion. subst res.
      rewrite (add_auto_base w _ _ _ _ _ p e1 e2 pos) by assumption.
      split.
      * intros Hfail. destruct (Z.ltb_spec pos 0); [reflexivity|lia].
      * intros Hok Hfit. destruct (Z.ltb_spec pos 0); [lia|].
        rewrite !to_uint_id by (unfold is_uint; lia). reflexivity.
Qed.

End Add.

(** ** The registry invariant *)

Lemma ranges_overlap_spec (a b : vmm_host_irqdomain) :
  ranges_overlap a b = true <-> ~ ranges_disjoint a b.
Proof.
  unfold ranges_overlap, ranges_disjoint. rewrite Z.ltb_lt. split.
  - intros Hlt Hdisj. apply (Hdisj (Z.max (base a) (base b))); lia.
  - intros Hnot. destruct (Z.lt_ge_cases (Z.max (base a) (base b))
                                         (Z.min (end_ a) (end_ b)))
      as [Hlt|Hge]; [exact Hlt|].
    exfalso. apply Hnot. intros x Ha Hb. lia.
Qed.

Lemma ranges_disjoint_sym (a b : vmm_host_irqdomain) :
  ranges_disjoint a b -> ranges_disjoint b a.
Proof. intros Hab x Hb Ha. exact (Hab x Ha Hb). Qed.

Lemma registry_disjoint_nil : registry_disjoint [].
Proof. intros i j pa pb a b _ Hi. rewrite lookup_nil in Hi. discriminate. Qed.

Lemma registry_disjoint_snoc
    (l : list (ptr * vmm_host_irqdomain)) (p : ptr) (d : vmm_host_irqdomain) :
  registry_disjoint l ->
  (forall (q : ptr) (a : vmm_host_irqdomain),
     (q, a) ∈ l -> ranges_disjoint a d) ->
  registry_disjoint (l ++ [(p, d)]).
Proof.
  intros Hl Hnew i j pa pb a b Hne Hi Hj.
  apply lookup_snoc_Some in Hi as [[Hilt Hi]|[Hieq Hi]];
    apply lookup_snoc_Some in Hj as [[Hjlt Hj]|[Hjeq Hj]].
  - exact (Hl i j pa pb a b Hne Hi Hj).
  - injection Hj as <- <-. apply (Hnew pa a).
    apply list_elem_of_lookup. exists i. exact Hi.
  - injection Hi as <- <-. apply ranges_disjoint_sym, (Hnew pb b).
    apply list_elem_of_lookup. exists j. exact Hj.
  - lia.
Qed.

Lemma lookup_unlinked
    (l1 l2 : list (ptr * vmm_host_irqdomain)) (x : ptr * vmm_host_irqdomain)
    (k : nat) :
  (l1 ++ l2) !! k =
    (l1 ++ x :: l2) !! (if decide (k < length l1)%nat then k else S k).
Proof.
  destruct (decide (k < length l1)%nat) as [Hlt|Hge].
  - rewrite !lookup_app_l by exact Hlt. reflexivity.
  - rewrite !lookup_app_r by lia.
    replace (S k - length l1)%nat with (S (k - length l1)) by lia.
    reflexivity.
Qed.

Lemma registry_disjoint_unlink
    (l1 l2 : list (ptr * vmm_host_irqdomain)) (x : ptr * vmm_host_irqdomain) :
  registry_disjoint (l1 ++ x :: l2) -> registry_disjoint (l1 ++ l2).
Proof.
  intros Hl i j pa pb a b Hne Hi Hj.
  rewrite (lookup_unlinked l1 l2 x) in Hi, Hj.
  refine (Hl _ _ pa pb a b _ Hi Hj).
  destruct (decide (i < length l1)%nat), (decide (j < length l1)%nat); lia.
Qed.

Section Invariant.

Context {plat : Platform} {E : Type} {col : Collaborators E}.

Lemma dispose_loop_domains (n : nat) :
  forall (pos end' : Z) (w : world E),
    domains (snd (dispose_loop n pos end' w)) = domains w.
Proof.
  induction n as [|n IH]; intros pos end' w; simpl; [reflexivity|].
  destruct (pos <? end'); [|reflexivity].
  unfold bind at 1. unfold irqext_dispose_mapping, call.
  destruct (vmm_host_irqext_dispose_mapping (ext w) pos) as [r e'].
  rewrite IH. reflexivity.
Qed.

Lemma remove_domains (w w' : world E) (p : ptr) :
  vmm_host_irqdomain_remove (Some p) w = Some w' ->
  exists (d : vmm_host_irqdomain) (l1 l2 : list (ptr * vmm_host_irqdomain)),
    domains w = l1 ++ (p, d) :: l2 /\ (p ∉ l1.*1) /\ domains w' = l1 ++ l2.
Proof.
  unfold vmm_host_irqdomain_remove.
  destruct (record_at p (domains w)) as [d|] eqn:Hrec; [|discriminate].
  intros [= <-].
  destruct (registry_linked p d (domains w) Hrec) as (l1 & l2 & Hsplit & Hfresh).
  exists d, l1, l2. split; [exact Hsplit|]. split; [exact Hfresh|].
  rewrite Hsplit. rewrite (proj2 (registry_unlink p d l1 l2 Hfresh)).
  unfold bind at 1. unfold set_domains at 1. unfold bind at 1.
  match goal with
  | |- context [dispose_loop ?n ?a ?b ?v] =>
      pose proof (dispose_loop_domains n a b v) as Hloop;
      destruct (dispose_loop n a b v) as [u w1]
  end.
  simpl in Hloop. unfold free, call. simpl. exact Hloop.
Qed.

(** C2, as the code has it: [add] does not compare the new range with the
    linked ones, so the ranges stay pairwise disjoint along the sequences of
    add and remove in which every record that gets linked has a range
    disjoint from those linked before it; [remove] never breaks this. *)
Theorem registry_disjoint_when_linked_apart (w : world E) :
  reachable_by links_apart w -> registry_disjoint (domains w).
Proof.
  induction 1 as [w0|w w' o Hreach IH Hrun Hapart].
  - apply registry_disjoint_nil.
  - destruct o as [of_node b size ops' hd|[p|]]; simpl in Hrun.
    + injection Hrun as <-.
      destruct (add_domains w of_node b size ops' hd)
        as [[_ Hsame]|(p & d & _ & Hmore)]; simpl in *.
      * rewrite Hsame. exact IH.
      * rewrite Hmore. apply registry_disjoint_snoc; [exact IH|].
        exact (Hapart p d Hmore).
    + destruct (remove_domains w w' p Hrun) as (d & l1 & l2 & Hw & _ & Hw').
      rewrite Hw'. apply (registry_disjoint_unlink l1 l2 (p, d)).
      rewrite <- Hw. exact IH.
    + injection Hrun as <-. exact IH.
Qed.

End Invariant.

(** * The properties on the reference board *)

Lemma board_create_makes_live : @create_makes_live board _.
Proof.
  intros e e' n r Hcall Hok. simpl in *. unfold board_create_mapping in Hcall.
  destruct (is_live e n) eqn:Hlive.
  - injection Hcall as _ <-. exact Hlive.
  - destruct (n <? irq_space e).
    + injection Hcall as _ <-. unfold is_live. simpl.
      rewrite Z.eqb_refl. reflexivity.
    + injection Hcall as <- _. lia.
Qed.

(** The upper bound is included: host IRQ 108 of the domain with base 100
    and 8 lines translates to 8. *)
Lemma to_hwirq_inclusive_bounds_witness :
  base domain_100_8 <= 108 <= end_ domain_100_8 /\
  vmm_host_irqdomain_to_hwirq domain_100_8 108 = 108 - base domain_100_8.
Proof.
  assert (Hin : base domain_100_8 <= 108 <= end_ domain_100_8)
    by (simpl; lia).
  split; [exact Hin|].
  refine (proj2 (proj1 (proj1 to_hwirq_inclusive_bounds domain_100_8 108
                          _ _ _) Hin) _);
    unfold is_uint, UINT_MAX, INT_MAX; simpl; lia.
Defined.

(** With a live entry at 103, index 3 of the domain at base 100 is found. *)
Lemma find_mapping_outcomes_witness :
  vmm_host_irqdomain_find_mapping
    (mk_board [103] 2048 1024 0 1%positive) domain_100_8 3 = 100 + 3.
Proof.
  refine (proj2 (proj1 (proj2 (find_mapping_outcomes
                                 (mk_board [103] 2048 1024 0 1%positive)
                                 domain_100_8 3 _ _)) _ _) _);
    unfold is_uint, UINT_MAX, INT_MAX; simpl; try lia; reflexivity.
Defined.

(** Creating index 3 of the domain at base 100 twice gives 103 twice. *)
Lemma create_mapping_idempotent_witness :
  let first := vmm_host_irqdomain_create_mapping (Some domain_100_8) 3 (boot 0) in
  first = (103, mk_world [] (mk_board [103] 2048 1024 0 1%positive)
                         [EvCreateMapping 103]) /\
  vmm_host_irqdomain_create_mapping (Some domain_100_8) 3 (snd first)
    = (103, snd first).
Proof.
  split; [reflexivity|].
  refine (proj1 (create_mapping_idempotent (boot 0) domain_100_8 3
                   board_create_makes_live _) 103 _ _ _).
  - simpl. lia.
  - reflexivity.
  - lia.
Defined.

(** On the domain at base 100 with 8 lines, index 8 is accepted and makes
    the allocator materialize host IRQ 108, the domain's [end]. *)
Lemma create_mapping_accepts_count_witness :
  vmm_host_irqdomain_create_mapping (Some domain_100_8) 8 (boot 0)
    = (108, mk_world [] (mk_board [108] 2048 1024 0 1%positive)
                     [EvCreateMapping 108]) /\
  end_ domain_100_8 = 108.
Proof.
  split; [|reflexivity].
  refine (proj1 (proj2 (proj2 (proj2
            (create_mapping_accepts_count (boot 0) domain_100_8 _)))) _).
  - reflexivity.
  - vm_compute. reflexivity.
Defined.

Lemma registry_disjoint_singleton (p : ptr) (d : vmm_host_irqdomain) :
  registry_disjoint [(p, d)].
Proof.
  intros [|i] [|j] pa pb a b Hne Hi Hj; simpl in *;
    try contradiction; try discriminate.
Qed.

(** Host IRQ 100 is live, and yet cannot be disposed through
    [dispose_mapping]. *)
Lemma dispose_mapping_at_base_witness :
  vmm_host_irq_get (ext one_domain_world) 100 = true /\
  vmm_host_irqdomain_dispose_mapping 100 one_domain_world
    = (VMM_ENOTAVAIL,
       mk_world (domains one_domain_world) (ext one_domain_world) [EvPrintf]).
Proof.
  split; [reflexivity|].
  refine (dispose_mapping_at_base one_domain_world 1%positive domain_100_8
            _ _ _).
  - left.
  - apply registry_disjoint_singleton.
  - simpl. lia.
Defined.

(** Removing the domain with base 100 and 8 lines disposes 100, ..., 107:
    the two live entries succeed, the other six calls fail, none is
    skipped. *)
Lemma remove_unlinks_disposes_frees_witness :
  vmm_host_irqdomain_remove (Some 1%positive) one_domain_world =
    Some (mk_world [] (mk_board [] 2048 1024 1 2%positive)
            [EvDisposeMapping 100; EvDisposeMapping 101; EvDisposeMapping 102;
             EvDisposeMapping 103; EvDisposeMapping 104; EvDisposeMapping 105;
             EvDisposeMapping 106; EvDisposeMapping 107; EvFree 1%positive]).
Proof.
  refine (proj2 (proj2 (remove_unlinks_disposes_frees one_domain_world)
                   1%positive domain_100_8 [] [] _ _ _ _)).
  - reflexivity.
  - apply not_elem_of_nil.
  - unfold is_uint, UINT_MAX. simpl. lia.
  - unfold is_uint, UINT_MAX. simpl. lia.
Defined.

(** Adding base 100 with 8 lines on a board with room links the record. *)
Lemma add_outcomes_witness :
  fst (vmm_host_irqdomain_add 0 100 8 0 0 (boot 1)) = Some 1%positive /\
  domains (snd (vmm_host_irqdomain_add 0 100 8 0 0 (boot 1)))
    = [(1%positive, domain_100_8)].
Proof.
  split; [reflexivity|].
  refine (proj2 (proj2 (proj2 (proj1
            (add_outcomes (boot 1) 0 100 8 0 0 _ _) _ _)) 1%positive _)).
  - simpl. unfold INT_MAX. lia.
  - unfold is_uint, UINT_MAX. lia.
  - lia.
  - unfold UINT_MAX. lia.
  - reflexivity.
Defined.

(** C6 as stated fails: a range that ends exactly at the capacity does not
    exceed it and is rejected, and a range well inside the capacity is
    rejected when the heap has no record left. *)
Lemma add_fails_within_capacity :
  (0 <= 1016 /\ 1016 + 8 <= CONFIG_HOST_IRQ_COUNT /\
   vmm_host_irqdomain_add 0 1016 8 0 0 (boot 4) = (None, boot 4)) /\
  (0 <= 0 /\ 0 + 1 <= CONFIG_HOST_IRQ_COUNT /\
   fst (vmm_host_irqdomain_add 0 0 1 0 0 (boot 0)) = None).
Proof.
  split; (split; [lia|]); (split; [simpl; lia | reflexivity]).
Qed.

(** The guard of [add] compares [base + size] after the addition has
    wrapped: base 1 with 2^32 - 1 lines passes it and gets [end = 0]. *)
Example add_wraps_around :
  vmm_host_irqdomain_add 0 1 4294967295 0 0 (boot 1)
    = (Some 1%positive,
       mk_world [(1%positive, mk_domain 0 1 4294967295 0 0 0)]
                (mk_board [] 2048 1024 0 2%positive) [EvZalloc]).
Proof. reflexivity. Qed.

Lemma overlapping_world_reachable : reachable overlapping_world.
Proof.
  unfold overlapping_world, reachable.
  eapply (reach_step _ _ _ (OpAdd 0 100 8 0 0)); [|reflexivity|exact I].
  eapply (reach_step _ _ _ (OpAdd 0 96 8 0 0)); [|reflexivity|exact I].
  apply reach_init.
Qed.

(** C2 as stated fails: after [add] of base 96 and of base 100, 8 lines
    each, both domains are linked and host IRQ 100 is in both ranges. *)
Lemma registry_overlap_reachable :
  reachable overlapping_world /\
  domains overlapping_world
    = [(1%positive, mk_domain 0 96 8 104 0 0);
       (2%positive, mk_domain 0 100 8 108 0 0)] /\
  ranges_overlap (mk_domain 0 96 8 104 0 0) (mk_domain 0 100 8 108 0 0)
    = true /\
  ~ registry_disjoint (domains overlapping_world).
Proof.
  split; [exact overlapping_world_reachable|].
  split; [reflexivity|]. split; [reflexivity|].
  intros Hdisj.
  apply (Hdisj 0%nat 1%nat 1%positive 2%positive
               (mk_domain 0 96 8 104 0 0) (mk_domain 0 100 8 108 0 0)
               ltac:(discriminate) eq_refl eq_refl 100); simpl; lia.
Qed.

(** C9 as stated fails: in that world the domain at address 2 is linked
    with base 100, a live mapping exists at 100, and
    [dispose_mapping (100)] is resolved to the other domain, calls the
    allocator and succeeds. *)
Lemma dispose_mapping_at_base_overlap :
  let d := mk_domain 0 100 8 108 0 0 in
  let after := vmm_host_irqdomain_dispose_mapping (base d) overlapping_world in
  reachable overlapping_world /\
  (2%positive, d) ∈ domains overlapping_world /\
  vmm_host_irq_get (ext overlapping_world) (base d) = true /\
  fst after = 0 /\
  fst after <> VMM_ENOTAVAIL /\
  trace (snd after) = trace overlapping_world ++ [EvDisposeMapping (base d)] /\
  vmm_host_irq_get (ext (snd after)) (base d) = false.
Proof.
  simpl. split; [exact overlapping_world_reachable|].
  split; [right; left|].
  split; [reflexivity|]. split; [reflexivity|].
  split; [vm_compute; discriminate|].
  split; reflexivity.
Qed.

(** What happens there: host IRQ 100, the base of the second domain, is
    disposed on behalf of the first. *)
Example dispose_mapping_in_overlap :
  vmm_host_irqdomain_dispose_mapping 100 overlapping_world
    = (0, mk_world [(1%positive, mk_domain 0 96 8 104 0 0);
                    (2%positive, mk_domain 0 100 8 108 0 0)]
                   (mk_board [] 2048 1024 0 3%positive)
                   [EvZalloc; EvZalloc; EvDisposeMapping 100]).
Proof. reflexivity. Qed.

(** The lookup on the registry of three domains [10, 20), [15, 30) and
    [30, 40): 16 is in the first two and resolved to the first, 10 and 30
    are bases and 40 an end, resolved to none. *)
Example get_scans_in_order :
  let l := [(1%positive, mk_domain 0 10 10 20 0 0);
            (2%positive, mk_domain 0 15 15 30 0 0);
            (3%positive, mk_domain 0 30 10 40 0 0)] in
  scan_domains l 16 = Some 1%positive /\
  scan_domains l 20 = Some 2%positive /\
  scan_domains l 10 = None /\
  scan_domains l 30 = None /\
  scan_domains l 40 = None.
Proof. repeat split. Qed.

Lemma registry_disjoint_when_linked_apart_witness :
  domains apart_world
    = [(1%positive, mk_domain 0 0 8 8 0 0);
       (2%positive, mk_domain 0 8 8 16 0 0)] /\
  registry_disjoint (domains apart_world).
Proof.
  split; [reflexivity|].
  refine (registry_disjoint_when_linked_apart apart_world _).
  unfold apart_world.
  eapply (reach_step _ _ _ (OpAdd 0 8 8 0 0)); [|reflexivity|].
  - eapply (reach_step _ _ _ (OpAdd 0 0 8 0 0)); [|reflexivity|].
    + apply reach_init.
    + intros p d _ q a Hin. inversion Hin.
  - intros p d Hlinked q a Hin.
    change ([(1%positive, mk_domain 0 0 8 8 0 0);
             (2%positive, mk_domain 0 8 8 16 0 0)]
            = [(1%positive, mk_domain 0 0 8 8 0 0)] ++ [(p, d)]) in Hlinked.
    injection Hlinked as <- <-.
    change ((q, a) ∈ [(1%positive, mk_domain 0 0 8 8 0 0)]) in Hin.
    apply list_elem_of_singleton in Hin. injection Hin as -> ->.
    intros x Ha Hd. simpl in *. lia.
Defined.

(** * Further properties of the domain manager *)

Lemma to_uint_is_uint (z : Z) : is_uint (to_uint z).
Proof.
  unfold is_uint, UINT_MAX, to_uint.
  pose proof (Z.mod_pos_bound z (2 ^ 32) eq_refl). lia.
Qed.

Section Lookup.

Context {plat : Platform} {E : Type} {col : Collaborators E}.

Lemma get_result (w : world E) (hirq : Z) :
  fst (vmm_host_irqdomain_get hirq w) = scan_domains (domains w) hirq.
Proof.
  unfold vmm_host_irqdomain_get.
  destruct (scan_domains (domains w) hirq); reflexivity.
Qed.

Lemma scan_domains_app (l1 l2 : list (ptr * vmm_host_irqdomain)) (hirq : Z) :
  scan_domains (l1 ++ l2) hirq =
    match scan_domains l1 hirq with
    | Some q => Some q
    | None => scan_domains l2 hirq
    end.
Proof.
  induction l1 as [|[q d] l1 IH]; simpl; [reflexivity|].
  destruct ((hirq >? base d) && (hirq <? end_ d)); [reflexivity | exact IH].
Qed.

Lemma scan_domains_linked (l : list (ptr * vmm_host_irqdomain)) (hirq : Z)
    (p : ptr) :
  scan_domains l hirq = Some p -> p ∈ l.*1.
Proof.
  induction l as [|[q d] l IH]; simpl; [discriminate|].
  destruct ((hirq >? base d) && (hirq <? end_ d)).
  - intros [= ->]. left.
  - intros Hrest. right. exact (IH Hrest).
Qed.

(** ** vmm_host_irqdomain_match *)

Lemma match_domains_found {D : Type}
    (fn : ptr -> vmm_host_irqdomain -> D -> Z) (data : D)
    (l : list (ptr * vmm_host_irqdomain)) (p : ptr) :
  match_domains fn data l = Some p ->
  exists (i : nat) (d : vmm_host_irqdomain),
    l !! i = Some (p, d) /\ fn p d data <> 0 /\
    forall (j : nat) (q : ptr) (d' : vmm_host_irqdomain),
      (j < i)%nat -> l !! j = Some (q, d') -> fn q d' data = 0.
Proof.
  induction l as [|[q0 d0] rest IH]; simpl; [discriminate|].
  destruct (Z.eqb_spec (fn q0 d0 data) 0) as [Hzero|Hyes].
  - intros Hrest. destruct (IH Hrest) as (i & d & Hi & Hfn & Hfirst).
    exists (S i), d. split; [exact Hi|]. split; [exact Hfn|].
    intros [|j] q d' Hj Hlook; simpl in Hlook.
    + injection Hlook as <- <-. exact Hzero.
    + apply (Hfirst j q d'); [lia | exact Hlook].
  - intros [= <-]. exists O, d0. split; [reflexivity|]. split; [exact Hyes|].
    intros j q d' Hj. lia.
Qed.

Lemma match_domains_none {D : Type}
    (fn : ptr -> vmm_host_irqdomain -> D -> Z) (data : D)
    (l : list (ptr * vmm_host_irqdomain)) :
  match_domains fn data l = None <->
  forall (q : ptr) (d : vmm_host_irqdomain), (q, d) ∈ l -> fn q d data = 0.
Proof.
  induction l as [|[q0 d0] rest IH]; simpl.
  - split; [|reflexivity]. intros _ q d Hin. inversion Hin.
  - destruct (Z.eqb_spec (fn q0 d0 data) 0) as [Hzero|Hyes].
    + rewrite IH. split.
      * intros Hall q d Hin. apply elem_of_cons in Hin as [[= -> ->]|Hin];
          [exact Hzero | exact (Hall q d Hin)].
      * intros Hall q d Hin. apply (Hall q d). right. exact Hin.
    + split; [discriminate|]. intros Hall. exfalso.
      apply Hyes, (Hall q0 d0). left.
Qed.

(** X1: [vmm_host_irqdomain_match] returns the first domain, in registry
    order, on which the callback answers non-zero, and NULL exactly when the
    callback answers zero on every linked domain; it changes nothing and,
    unlike [vmm_host_irqdomain_get], prints nothing on a miss. *)
Theorem match_first_accepted {D : Type} (w : world E) (data : D)
    (fn : ptr -> vmm_host_irqdomain -> D -> Z) :
  match vmm_host_irqdomain_match data fn w with
  | (Some p, w') =>
      w' = w /\
      exists (i : nat) (d : vmm_host_irqdomain),
        domains w !! i = Some (p, d) /\ fn p d data <> 0 /\
        forall (j : nat) (q : ptr) (d' : vmm_host_irqdomain),
          (j < i)%nat -> domains w !! j = Some (q, d') -> fn q d' data = 0
  | (None, w') =>
      w' = w /\
      forall (q : ptr) (d : vmm_host_irqdomain),
        (q, d) ∈ domains w -> fn q d data = 0
  end.
Proof.
  unfold vmm_host_irqdomain_match, ret.
  destruct (match_domains fn data (domains w)) as [p|] eqn:Hscan.
  - split; [reflexivity|]. apply match_domains_found, Hscan.
  - split; [reflexivity|]. apply match_domains_none, Hscan.
Qed.

(** X2: [vmm_host_irqdomain_get] resolves a host IRQ number to the domain
    that [vmm_host_irqdomain_match] finds with the test
    [hirq > base && hirq < end] as callback; the two differ only in the
    diagnostic that [get] prints on a miss. *)
Theorem get_is_match_strictly_inside (w : world E) (hirq : Z) :
  fst (vmm_host_irqdomain_get hirq w)
    = fst (vmm_host_irqdomain_match hirq holds_strictly w) /\
  snd (vmm_host_irqdomain_match hirq holds_strictly w) = w /\
  (fst (vmm_host_irqdomain_get hirq w) = None ->
   trace (snd (vmm_host_irqdomain_get hirq w)) = trace w ++ [EvPrintf]).
Proof.
  split; [|split].
  - rewrite get_result. unfold vmm_host_irqdomain_match, ret. simpl.
    induction (domains w) as [|[q d] l IH]; simpl; [reflexivity|].
    unfold holds_strictly at 1.
    destruct ((hirq >? base d) && (hirq <? end_ d)); simpl;
      [reflexivity | exact IH].
  - reflexivity.
  - unfold vmm_host_irqdomain_get.
    destruct (scan_domains (domains w) hirq); [discriminate|].
    intros _. reflexivity.
Qed.

(** ** add and remove against the lookup *)

Lemma add_links (w w' : world E) (of_node b size ops' hd : Z) (p : ptr) :
  vmm_host_irqdomain_add of_node b size ops' hd w = (Some p, w') ->
  exists pos : Z,
    domains w' =
      domains w ++
        [(p, mk_domain of_node (to_uint pos) size
                       (to_uint (to_uint pos + size)) hd ops')] /\
    (0 <= b -> pos = b /\ beyond_capacity b size = false).
Proof.
  destruct (beyond_capacity b size) eqn:Hguard.
  { rewrite add_rejected by assumption. discriminate. }
  destruct (vmm_zalloc (ext w)) as [[q|] e1] eqn:Hheap.
  - destruct (Z.lt_ge_cases b 0) as [Hneg|Hpos].
    + destruct (vmm_host_irqext_alloc_region e1 size) as [pos e2] eqn:Hreg.
      rewrite (add_auto_base w _ _ _ _ _ q e1 e2 pos) by assumption.
      destruct (pos <? 0); [discriminate|].
      intros [= <- <-]. exists pos. split; [reflexivity | lia].
    + rewrite (add_explicit_base w _ _ _ _ _ q e1) by assumption.
      intros [= <- <-]. exists b. split; [reflexivity|].
      intros _. split; reflexivity.
  - rewrite (add_out_of_memory w _ _ _ _ _ e1) by assumption. discriminate.
Qed.

(** X3: a domain that [add] links does not take over any number: after a
    successful [add], [get] resolves every host IRQ number that was resolved
    before to the same domain as before, and a number that was not resolved
    to the new domain exactly when it lies strictly inside the new range. *)
Theorem get_after_add
    (w w' : world E) (of_node b size ops' hd : Z) (p : ptr) :
  vmm_host_irqdomain_add of_node b size ops' hd w = (Some p, w') ->
  exists d : vmm_host_irqdomain,
    domains w' = domains w ++ [(p, d)] /\ count d = size /\
    forall hirq : Z,
      fst (vmm_host_irqdomain_get hirq w') =
        match fst (vmm_host_irqdomain_get hirq w) with
        | Some q => Some q
        | None =>
            if (hirq >? base d) && (hirq <? end_ d) then Some p else None
        end.
Proof.
  intros Hadd. destruct (add_links _ _ _ _ _ _ _ _ Hadd) as (pos & Hw' & _).
  eexists. split; [exact Hw'|]. split; [reflexivity|].
  intros hirq. rewrite !get_result, Hw', scan_domains_app. simpl.
  destruct (scan_domains (domains w) hirq); [reflexivity|].
  destruct ((hirq >? to_uint pos) && (hirq <? to_uint (to_uint pos + size)));
    reflexivity.
Qed.

Lemma remove_linked (w : world E) (p : ptr) (d : vmm_host_irqdomain)
    (l1 l2 : list (ptr * vmm_host_irqdomain)) :
  domains w = l1 ++ (p, d) :: l2 -> p ∉ l1.*1 ->
  exists w' : world E,
    vmm_host_irqdomain_remove (Some p) w = Some w' /\ domains w' = l1 ++ l2.
Proof.
  intros Hw Hfresh. unfold vmm_host_irqdomain_remove. rewrite Hw.
  destruct (registry_unlink p d l1 l2 Hfresh) as [-> ->].
  eexists. split; [reflexivity|].
  unfold bind at 1. unfold set_domains at 1. unfold bind at 1.
  match goal with
  | |- context [dispose_loop ?n ?a ?b ?v] =>
      pose proof (dispose_loop_domains n a b v) as Hloop;
      destruct (dispose_loop n a b v) as [u w1]
  end.
  simpl in Hloop. unfold free, call. simpl. exact Hloop.
Qed.

(** X4: [remove] undoes [add] on the registry: removing the domain that
    [add] has just returned, at an address that was not linked before,
    gives back the registry as it was. *)
Theorem add_then_remove_restores_registry
    (w w' : world E) (of_node b size ops' hd : Z) (p : ptr) :
  vmm_host_irqdomain_add of_node b size ops' hd w = (Some p, w') ->
  p ∉ (domains w).*1 ->
  exists w'' : world E,
    vmm_host_irqdomain_remove (Some p) w' = Some w'' /\
    domains w'' = domains w.
Proof.
  intros Hadd Hfresh.
  destruct (add_links _ _ _ _ _ _ _ _ Hadd) as (pos & Hw' & _).
  destruct (remove_linked w' p _ (domains w) [] Hw' Hfresh) as (w'' & Hrm & Hd).
  exists w''. split; [exact Hrm|]. rewrite Hd. apply app_nil_r.
Qed.

(** X5: with unique addresses in the registry, a removed domain is never
    returned by [get] again, and a host IRQ number that was resolved to
    another domain is still resolved to it. *)
Theorem removed_domain_not_resolved (w w' : world E) (p : ptr) :
  NoDup (domains w).*1 ->
  vmm_host_irqdomain_remove (Some p) w = Some w' ->
  forall hirq : Z,
    fst (vmm_host_irqdomain_get hirq w') <> Some p /\
    (forall q : ptr, q <> p ->
       fst (vmm_host_irqdomain_get hirq w) = Some q ->
       fst (vmm_host_irqdomain_get hirq w') = Some q).
Proof.
  intros Huniq Hrm hirq.
  destruct (remove_domains w w' p Hrm) as (d & l1 & l2 & Hw & Hl1 & Hw').
  rewrite !get_result, Hw, Hw'. rewrite Hw in Huniq.
  rewrite fmap_app, fmap_cons in Huniq. simpl in Huniq.
  apply NoDup_app in Huniq as (_ & _ & Hl2).
  apply NoDup_cons in Hl2 as [Hl2 _].
  split.
  - intros Hscan. apply scan_domains_linked in Hscan.
    rewrite fmap_app in Hscan. apply elem_of_app in Hscan as [?|?];
      contradiction.
  - intros q Hne. rewrite !scan_domains_app. simpl.
    destruct (scan_domains l1 hirq); [trivial|].
    destruct ((hirq >? base d) && (hirq <? end_ d)); [|trivial].
    intros [= ->]. contradiction.
Qed.

(** X6: along the sequences of add and remove in which the heap never hands
    out the address of a record that is still linked, no two linked records
    share an address. *)
Theorem addresses_unique_when_fresh (w : world E) :
  reachable_by links_fresh w -> NoDup (domains w).*1.
Proof.
  induction 1 as [w0|w w' o Hreach IH Hrun Hfresh].
  - apply NoDup_nil_2.
  - destruct o as [of_node b size ops' hd|[p|]]; simpl in Hrun.
    + injection Hrun as <-.
      destruct (add_domains w of_node b size ops' hd)
        as [[_ Hsame]|(p & d & _ & Hmore)]; simpl in *.
      * rewrite Hsame. exact IH.
      * rewrite Hmore, fmap_app. apply NoDup_app. split; [exact IH|].
        split; [|apply NoDup_singleton].
        intros q Hq Hq'. apply list_elem_of_singleton in Hq'. subst q.
        exact (Hfresh p d Hmore Hq).
    + destruct (remove_domains w w' p Hrun) as (d & l1 & l2 & Hw & _ & Hw').
      rewrite Hw', fmap_app. rewrite Hw, fmap_app, fmap_cons in IH.
      apply NoDup_app in IH as (H1 & H12 & H2).
      apply NoDup_cons in H2 as [_ H2].
      apply NoDup_app. split; [exact H1|]. split; [|exact H2].
      intros q Hq Hq'. apply (H12 q Hq). right. exact Hq'.
    + injection Hrun as <-. exact IH.
Qed.

End Lookup.

Section Translation.

Context {plat : Platform} {E : Type} {col : Collaborators E}.

(** ** Translation between hwirq and hirq *)

Lemma to_int_injective (a b : Z) :
  is_uint a -> is_uint b -> to_int a = to_int b -> a = b.
Proof.
  unfold is_uint, UINT_MAX, to_int. intros Ha Hb.
  rewrite !Z.mod_small by lia.
  destruct (Z.ltb_spec a (2 ^ 31)), (Z.ltb_spec b (2 ^ 31)); lia.
Qed.

Lemma to_hwirq_fits (d : vmm_host_irqdomain) (hirq : Z) :
  domain_fits d -> base d <= hirq <= end_ d ->
  vmm_host_irqdomain_to_hwirq d hirq = hirq - base d.
Proof.
  intros (Hb & Hc & He & Hmax) Hin. unfold INT_MAX in Hmax.
  rewrite to_hwirq_in_range; [| unfold is_uint, UINT_MAX; lia .. | exact Hin].
  apply to_int_nonneg. unfold INT_MAX. lia.
Qed.

Lemma find_mapping_fits (e : E) (d : vmm_host_irqdomain) (hwirq : Z) :
  domain_fits d -> 0 <= hwirq <= count d ->
  vmm_host_irqdomain_find_mapping e d hwirq =
    if vmm_host_irq_get e (base d + hwirq) then base d + hwirq else -1.
Proof.
  intros (Hb & Hc & He & Hmax) Hin.
  rewrite find_mapping_in_bounds by lia.
  assert (Hu : to_uint (base d + hwirq) = base d + hwirq).
  { apply to_uint_id. unfold is_uint, UINT_MAX. unfold INT_MAX in Hmax. lia. }
  rewrite hirq_fits by lia. rewrite Hu. reflexivity.
Qed.

(** X7: on a domain whose numbers fit an [int], [find_mapping] and
    [to_hwirq] are inverse to each other on live entries, over the whole
    index range [0, count] and the whole number range [base, end], both ends
    included. *)
Theorem translation_round_trip (e : E) (d : vmm_host_irqdomain) :
  domain_fits d ->
  (forall hwirq : Z,
     0 <= hwirq <= count d ->
     vmm_host_irq_get e (base d + hwirq) = true ->
     vmm_host_irqdomain_to_hwirq d
       (vmm_host_irqdomain_find_mapping e d hwirq) = hwirq) /\
  (forall hirq : Z,
     base d <= hirq <= end_ d ->
     vmm_host_irq_get e hirq = true ->
     vmm_host_irqdomain_find_mapping e d
       (vmm_host_irqdomain_to_hwirq d hirq) = hirq).
Proof.
  intros Hfits. pose proof Hfits as (Hb & Hc & He & Hmax). split.
  - intros hwirq Hin Hlive.
    rewrite find_mapping_fits, Hlive by assumption.
    rewrite to_hwirq_fits by (assumption || lia). lia.
  - intros hirq Hin Hlive.
    rewrite to_hwirq_fits by assumption.
    rewrite find_mapping_fits by (assumption || lia).
    replace (base d + (hirq - base d)) with hirq by lia.
    rewrite Hlive. reflexivity.
Qed.

(** X8: every host IRQ number that [create_mapping] returns for a domain
    whose numbers fit an [int] is [base + hwirq], with [hwirq <= count], and
    [to_hwirq] translates it back to [hwirq]; this includes [hwirq = count],
    whose number is [end].  Error codes are negative. *)
Theorem create_mapping_translates_back
    (w w' : world E) (d : vmm_host_irqdomain) (hwirq hirq : Z) :
  VMM_ENOTAVAIL < 0 ->
  domain_fits d -> 0 <= hwirq ->
  vmm_host_irqdomain_create_mapping (Some d) hwirq w = (hirq, w') ->
  0 <= hirq ->
  hwirq <= count d /\ hirq = base d + hwirq /\
  vmm_host_irqdomain_to_hwirq d hirq = hwirq.
Proof.
  intros Herr Hfits Hpos Hcreate Hok.
  pose proof Hfits as (Hb & Hc & He & Hmax).
  destruct (Z.lt_ge_cases (count d) hwirq) as [Hout|Hin].
  { rewrite create_mapping_out_of_bounds in Hcreate by lia.
    injection Hcreate as <- _. lia. }
  assert (Hnum : hirq = base d + hwirq).
  { destruct (Z.lt_ge_cases
                (vmm_host_irqdomain_find_mapping (ext w) d hwirq) 0)
      as [Hnone|Hfound].
    - rewrite create_mapping_fresh in Hcreate by assumption.
      simpl in Hcreate.
      destruct (vmm_host_irqext_create_mapping
                  (ext w) (to_uint (base d + hwirq))) as [r e'].
      injection Hcreate as Hres _.
      destruct (Z.ltb_spec r 0); [lia|].
      rewrite hirq_fits in Hres by lia. lia.
    - rewrite create_mapping_existing in Hcreate by assumption.
      injection Hcreate as Hres _.
      rewrite find_mapping_fits in Hres, Hfound by (assumption || lia).
      destruct (vmm_host_irq_get (ext w) (base d + hwirq)); lia. }
  split; [exact Hin|]. split; [exact Hnum|].
  rewrite to_hwirq_fits by (assumption || lia). lia.
Qed.

(** X9: the translation is injective on the range it accepts: two host IRQ
    numbers of [[base, end]] with the same hwirq are the same number. *)
Theorem to_hwirq_injective (d : vmm_host_irqdomain) (h1 h2 : Z) :
  is_uint (base d) -> is_uint h1 -> is_uint h2 ->
  base d <= h1 <= end_ d -> base d <= h2 <= end_ d ->
  vmm_host_irqdomain_to_hwirq d h1 = vmm_host_irqdomain_to_hwirq d h2 ->
  h1 = h2.
Proof.
  intros Hb H1 H2 Hin1 Hin2.
  rewrite !to_hwirq_in_range by assumption.
  intros Heq. apply to_int_injective in Heq; unfold is_uint in *; lia.
Qed.

(** X10: a host IRQ number that [get] resolves to a domain whose numbers
    fit an [int] translates, by [to_hwirq] on that domain, to an hwirq
    strictly between 0 and [count]: the lookup never hands out a domain for
    its first index or for index [count]. *)
Theorem resolved_number_translates (w : world E) (hirq : Z) (p : ptr) :
  fst (vmm_host_irqdomain_get hirq w) = Some p ->
  exists d : vmm_host_irqdomain,
    (p, d) ∈ domains w /\
    (domain_fits d ->
     0 < vmm_host_irqdomain_to_hwirq d hirq < count d /\
     base d + vmm_host_irqdomain_to_hwirq d hirq = hirq).
Proof.
  unfold vmm_host_irqdomain_get.
  destruct (scan_domains (domains w) hirq) as [q|] eqn:Hscan; [|discriminate].
  intros [= ->].
  destruct (scan_domains_found _ _ _ Hscan) as (i & d & Hi & [Hlo Hhi] & _).
  exists d. split.
  - apply list_elem_of_lookup. exists i. exact Hi.
  - intros Hfits. pose proof Hfits as (Hb & Hc & He & Hmax).
    rewrite to_hwirq_fits by (assumption || lia). lia.
Qed.

(** X11: once [create_mapping] has returned a host IRQ number,
    [find_mapping] finds that number for the same domain and hwirq.  The
    allocator is taken to make the number it materializes live in the
    generic registry. *)
Theorem find_mapping_after_create
    (w w' : world E) (d : vmm_host_irqdomain) (hwirq hirq : Z) :
  create_makes_live ->
  hwirq <= count d ->
  vmm_host_irqdomain_create_mapping (Some d) hwirq w = (hirq, w') ->
  0 <= hirq ->
  vmm_host_irqdomain_find_mapping (ext w') d hwirq = hirq.
Proof.
  intros Hlive Hle Hcreate Hok.
  destruct (Z.lt_ge_cases
              (vmm_host_irqdomain_find_mapping (ext w) d hwirq) 0)
    as [Hnone|Hfound].
  - rewrite create_mapping_fresh in Hcreate by assumption. simpl in Hcreate.
    destruct (vmm_host_irqext_create_mapping
                (ext w) (to_uint (base d + hwirq))) as [r e'] eqn:Hcall.
    injection Hcreate as Hres <-.
    destruct (Z.ltb_spec r 0) as [Hneg|Hpos]; [lia|].
    rewrite find_mapping_in_bounds by assumption. simpl.
    rewrite (Hlive _ _ _ _ Hcall Hpos). exact Hres.
  - rewrite create_mapping_existing in Hcreate by assumption.
    injection Hcreate as Hres <-. exact Hres.
Qed.

(** ** Disposal *)

(** X12: for a host IRQ number strictly inside the range of a linked
    domain, [dispose_mapping] calls the allocator's disposal for that
    number, once, and returns what the allocator returns; the registry is
    not changed and nothing is printed. *)
Theorem dispose_mapping_inside_delegates
    (w : world E) (p : ptr) (d : vmm_host_irqdomain) (hirq : Z) :
  (p, d) ∈ domains w ->
  base d < hirq < end_ d ->
  vmm_host_irqdomain_dispose_mapping hirq w =
    let (r, e') := vmm_host_irqext_dispose_mapping (ext w) hirq in
    (r, mk_world (domains w) e' (trace w ++ [EvDisposeMapping hirq])).
Proof.
  intros Hin Hinside.
  destruct (scan_domains (domains w) hirq) as [q|] eqn:Hscan.
  - exact (dispose_mapping_owned w hirq q Hscan).
  - exfalso. exact (proj1 (scan_domains_none _ _) Hscan p d Hin Hinside).
Qed.

(** X13: when the ranges of the linked domains are pairwise disjoint,
    [dispose_mapping (end)] of a linked, non-empty domain returns
    [VMM_ENOTAVAIL] without calling the allocator: the number that
    [create_mapping] materializes for [hwirq = count] cannot be disposed
    through [dispose_mapping]. *)
Theorem dispose_mapping_at_end
    (w : world E) (p : ptr) (d : vmm_host_irqdomain) :
  (p, d) ∈ domains w ->
  registry_disjoint (domains w) ->
  base d < end_ d ->
  vmm_host_irqdomain_dispose_mapping (end_ d) w
    = (VMM_ENOTAVAIL, mk_world (domains w) (ext w) (trace w ++ [EvPrintf])).
Proof.
  intros Hin Hdisj Hnonempty. apply dispose_mapping_no_domain.
  apply scan_domains_none. intros q d' Hin' [Hlo Hhi].
  apply list_elem_of_lookup in Hin as [i Hi].
  apply list_elem_of_lookup in Hin' as [j Hj].
  destruct (decide (i = j)) as [->|Hne].
  - rewrite Hi in Hj. injection Hj as _ <-. lia.
  - apply (Hdisj i j p q d d' Hne Hi Hj (end_ d - 1)); lia.
Qed.

Lemma remove_trace (w : world E) (p : ptr) (d : vmm_host_irqdomain)
    (l1 l2 : list (ptr * vmm_host_irqdomain)) :
  domains w = l1 ++ (p, d) :: l2 -> p ∉ l1.*1 ->
  is_uint (base d) -> is_uint (end_ d) ->
  exists w' : world E,
    vmm_host_irqdomain_remove (Some p) w = Some w' /\
    domains w' = l1 ++ l2 /\
    trace w' = trace w ++
                 map EvDisposeMapping (seqZ (base d) (end_ d - base d)) ++
                 [EvFree p].
Proof.
  intros Hw Hfresh Hb He. eexists. split.
  - unfold vmm_host_irqdomain_remove. rewrite Hw.
    destruct (registry_unlink p d l1 l2 Hfresh) as [-> ->].
    unfold bind at 1. unfold set_domains at 1. unfold bind at 1.
    rewrite dispose_loop_visits;
      [| unfold is_uint in Hb; lia | unfold is_uint in He; lia | reflexivity].
    unfold free, call. simpl. reflexivity.
  - simpl. split; [reflexivity|]. rewrite <- app_assoc. reflexivity.
Qed.

(** X14: a mapping that [create_mapping] materializes for [hwirq = count],
    at host IRQ [end], is not disposed when its domain is removed: [remove]
    disposes the numbers of [[base, end)] only, so the calls of the two
    operations are the creation of [end], the disposals of [base], ...,
    [end - 1], and the free. *)
Theorem mapping_at_end_outlives_remove
    (w : world E) (p : ptr) (d : vmm_host_irqdomain)
    (l1 l2 : list (ptr * vmm_host_irqdomain)) :
  domains w = l1 ++ (p, d) :: l2 -> p ∉ l1.*1 ->
  is_uint (base d) -> is_uint (end_ d) -> end_is_base_plus_count d ->
  vmm_host_irqdomain_find_mapping (ext w) d (count d) < 0 ->
  exists (w1 w2 : world E) (r : Z),
    vmm_host_irqdomain_create_mapping (Some d) (count d) w = (r, w1) /\
    vmm_host_irqdomain_remove (Some p) w1 = Some w2 /\
    trace w2 = trace w ++ [EvCreateMapping (end_ d)] ++
                 map EvDisposeMapping (seqZ (base d) (end_ d - base d)) ++
                 [EvFree p] /\
    EvDisposeMapping (end_ d)
      ∉ map EvDisposeMapping (seqZ (base d) (end_ d - base d)).
Proof.
  intros Hw Hfresh Hb He Hend Hnone. unfold end_is_base_plus_count in Hend.
  pose proof (create_mapping_fresh w d (count d) ltac:(lia) Hnone) as Hcreate.
  cbv zeta in Hcreate. rewrite <- Hend in Hcreate.
  destruct (vmm_host_irqext_create_mapping (ext w) (end_ d)) as [r e'].
  match type of Hcreate with _ = (?res, ?w1) =>
    destruct (remove_trace w1 p d l1 l2 Hw Hfresh Hb He)
      as (w2 & Hrm & _ & Htrace);
    exists w1, w2, res
  end.
  split; [exact Hcreate|]. split; [exact Hrm|]. split.
  - rewrite Htrace. cbn [trace]. rewrite <- ?app_assoc. reflexivity.
  - intros Hmem. apply list_elem_of_fmap in Hmem as (x & Hx & Hseq).
    injection Hx as <-. apply elem_of_seqZ in Hseq. lia.
Qed.

End Translation.

Section Records.

Context {plat : Platform} {E : Type} {col : Collaborators E}.

(** ** What add guarantees of its records *)

(** X15: every record that any sequence of add and remove leaves linked has
    [base] and [end] within [unsigned int] and [end = base + count] in
    [unsigned int] arithmetic: the hypotheses under which [remove] disposes
    exactly [[base, end)] and [create_mapping] reaches [end] hold for every
    domain the registry can contain. *)
Theorem reachable_records_well_formed (w : world E) :
  reachable w ->
  forall (p : ptr) (d : vmm_host_irqdomain),
    (p, d) ∈ domains w -> record_well_formed d.
Proof.
  induction 1 as [w0|w w' o Hreach IH Hrun _]; intros p d Hin.
  - inversion Hin.
  - destruct o as [of_node b size ops' hd|[q|]]; simpl in Hrun.
    + injection Hrun as <-.
      destruct (vmm_host_irqdomain_add of_node b size ops' hd w)
        as [[q|] w1] eqn:Hadd; simpl in Hin.
      * destruct (add_links _ _ _ _ _ _ _ _ Hadd) as (pos & Hw1 & _).
        rewrite Hw1 in Hin. apply elem_of_app in Hin as [Hin|Hin].
        -- exact (IH p d Hin).
        -- apply list_elem_of_singleton in Hin. injection Hin as _ ->.
           split; [apply to_uint_is_uint|]. split; [apply to_uint_is_uint|].
           reflexivity.
      * destruct (add_domains w of_node b size ops' hd)
          as [[_ Hsame]|(q & d' & Hres & _)]; rewrite Hadd in *; simpl in *.
        -- rewrite Hsame in Hin. exact (IH p d Hin).
        -- discriminate.
    + destruct (remove_domains w w' q Hrun) as (d' & l1 & l2 & Hw & _ & Hw').
      apply (IH p d). rewrite Hw. rewrite Hw' in Hin.
      apply elem_of_app in Hin as [Hin|Hin]; apply elem_of_app;
        [left | right; right]; exact Hin.
    + injection Hrun as <-. exact (IH p d Hin).
Qed.

(** X16: a domain that [add] links at a caller-supplied base lies below
    the capacity with both its ends: [base] and [end] are smaller than
    [CONFIG_HOST_IRQ_COUNT], so every host IRQ number that [to_hwirq]
    accepts for it, [end] included, is a number of the fixed host IRQ
    space. *)
Theorem explicit_base_within_capacity
    (w w' : world E) (of_node b size ops' hd : Z) (p : ptr) :
  0 <= CONFIG_HOST_IRQ_COUNT <= INT_MAX ->
  0 <= b ->
  vmm_host_irqdomain_add of_node b size ops' hd w = (Some p, w') ->
  exists d : vmm_host_irqdomain,
    domains w' = domains w ++ [(p, d)] /\
    base d = b /\
    base d < CONFIG_HOST_IRQ_COUNT /\ end_ d < CONFIG_HOST_IRQ_COUNT /\
    forall hirq : Z,
      hirq <= end_ d -> hirq < CONFIG_HOST_IRQ_COUNT.
Proof.
  intros Hcfg Hb Hadd.
  destruct (add_links _ _ _ _ _ _ _ _ Hadd) as (pos & Hw' & Hexp).
  destruct (Hexp Hb) as [-> Hguard].
  unfold beyond_capacity in Hguard.
  destruct (Z.geb_spec b 0); [|lia]. simpl in Hguard.
  apply orb_false_iff in Hguard as [Hlow Hhigh].
  apply Z.leb_gt in Hlow, Hhigh.
  assert (Hbu : to_uint b = b).
  { apply to_uint_id. unfold is_uint, UINT_MAX, INT_MAX in *. lia. }
  assert (Hcu : to_uint CONFIG_HOST_IRQ_COUNT = CONFIG_HOST_IRQ_COUNT).
  { apply to_uint_id. unfold is_uint, UINT_MAX, INT_MAX in *. lia. }
  eexists. split; [exact Hw'|]. simpl. rewrite Hbu, <- Hcu.
  split; [reflexivity|]. split; [lia|]. split; [lia|].
  intros hirq Hle. lia.
Qed.

End Records.

Section DumpProperties.

Context {E : Type} {col : Collaborators E} {rec : HostIrqRecords E}.

(** ** vmm_host_irqdomain_debug_dump *)

Lemma to_uint_to_int (z : Z) : to_uint (to_int z) = to_uint z.
Proof.
  unfold to_uint, to_int.
  destruct (z mod 2 ^ 32 <? 2 ^ 31).
  - apply Z.mod_mod. lia.
  - replace (z mod 2 ^ 32 - 2 ^ 32) with (z mod 2 ^ 32 + (-1) * 2 ^ 32) by lia.
    rewrite Z_mod_plus_full. apply Z.mod_mod. lia.
Qed.

Lemma to_int_next (x : Z) : to_int (to_int x + 1) = to_int (x + 1).
Proof.
  assert (Hmod : (to_int x + 1) mod 2 ^ 32 = (x + 1) mod 2 ^ 32).
  { rewrite <- Z.add_mod_idemp_l by lia.
    change (to_int x mod 2 ^ 32) with (to_uint (to_int x)).
    rewrite to_uint_to_int. unfold to_uint.
    rewrite Z.add_mod_idemp_l by lia. reflexivity. }
  unfold to_int at 1 3. rewrite Hmod. reflexivity.
Qed.

(** The loop of the dump visits [x, ..., end - 1] and stops by its own
    test. *)
Lemma dump_loop_lines (n : nat) :
  forall (e : E) (x end' : Z),
    0 <= x -> end' <= UINT_MAX -> n = Z.to_nat (end' - x) ->
    dump_loop n e (to_int x) end'
      = flat_map (lines_of e) (seqZ x (end' - x)).
Proof.
  induction n as [|n IH]; intros e x end' Hx Hend Hfuel.
  - rewrite seqZ_nil by lia. reflexivity.
  - assert (Hlt : x < end') by lia.
    assert (Hu : to_uint (to_int x) = x).
    { rewrite to_uint_to_int. apply to_uint_id. unfold is_uint. lia. }
    rewrite seqZ_cons by lia. simpl. rewrite Hu.
    destruct (Z.ltb_spec x end') as [_|Hge]; [|lia].
    rewrite to_int_next, IH by lia.
    replace (Z.pred (end' - x)) with (end' - (x + 1)) by lia.
    replace (Z.succ x) with (x + 1) by lia.
    reflexivity.
Qed.

Lemma dump_domains_lines (e : E) (l : list (ptr * vmm_host_irqdomain)) :
  (forall (p : ptr) (d : vmm_host_irqdomain),
     (p, d) ∈ l -> is_uint (base d) /\ is_uint (end_ d)) ->
  dump_domains e l =
    flat_map
      (fun pd : ptr * vmm_host_irqdomain =>
         LineGroup (to_int (base pd.2)) (to_int (end_ pd.2)) ::
         flat_map (lines_of e) (seqZ (base pd.2) (end_ pd.2 - base pd.2)))
      l.
Proof.
  induction l as [|[p d] l IH]; intros Hwf; simpl; [reflexivity|].
  destruct (Hwf p d ltac:(left)) as [Hb He]. unfold is_uint in Hb, He.
  rewrite dump_loop_lines by lia.
  rewrite IH; [reflexivity|].
  intros q d' Hin. apply (Hwf q d'). right. exact Hin.
Qed.

Lemma mapped_line_of (e : E) (y x name : Z) (chip : option Z) :
  LineMapped (to_int x) name chip ∈ lines_of e y <->
  to_int y = to_int x /\ vmm_host_irq_get e y = true /\
  name = irq_name (vmm_host_irq_fields e y) /\
  chip = irq_chip_name (vmm_host_irq_fields e y).
Proof.
  unfold lines_of. destruct (vmm_host_irq_get e y).
  - rewrite elem_of_app, list_elem_of_singleton. split.
    + intros [Hwarn|Hline].
      * destruct (y =? irq_num (vmm_host_irq_fields e y)).
        -- inversion Hwarn.
        -- apply list_elem_of_singleton in Hwarn. discriminate.
      * injection Hline as -> -> ->. repeat split; reflexivity.
    + intros (-> & _ & -> & ->). right. reflexivity.
  - split; [intros Hin; inversion Hin|]. intros (_ & Hlive & _). discriminate.
Qed.

(** X17: for a registry of records within [unsigned int],
    [vmm_host_irqdomain_debug_dump] writes, for every linked domain in
    registry order, the group line and then the lines of the host IRQ
    numbers of [[base, end)] in increasing order, a number without entry
    giving no line.  So a mapped line for [x] is written exactly when [x] has
    an entry and lies in the half-open range of some linked domain: the
    number [end], which [to_hwirq] and [create_mapping] accept, is not
    listed for its domain. *)
Theorem debug_dump_lists_live_numbers (w : world E) :
  (forall (p : ptr) (d : vmm_host_irqdomain),
     (p, d) ∈ domains w -> is_uint (base d) /\ is_uint (end_ d)) ->
  vmm_host_irqdomain_debug_dump w =
    flat_map
      (fun pd : ptr * vmm_host_irqdomain =>
         LineGroup (to_int (base pd.2)) (to_int (end_ pd.2)) ::
         flat_map (lines_of (ext w))
                  (seqZ (base pd.2) (end_ pd.2 - base pd.2)))
      (domains w) /\
  forall (x name : Z) (chip : option Z),
    is_uint x ->
    (LineMapped (to_int x) name chip ∈ vmm_host_irqdomain_debug_dump w <->
     (exists (p : ptr) (d : vmm_host_irqdomain),
        (p, d) ∈ domains w /\ base d <= x < end_ d) /\
     vmm_host_irq_get (ext w) x = true /\
     name = irq_name (vmm_host_irq_fields (ext w) x) /\
     chip = irq_chip_name (vmm_host_irq_fields (ext w) x)).
Proof.
  intros Hwf. unfold vmm_host_irqdomain_debug_dump.
  rewrite (dump_domains_lines (ext w) (domains w) Hwf).
  split; [reflexivity|].
  intros x name chip Hx. rewrite list_elem_of_In, in_flat_map. split.
  - intros ([p d] & Hin & Hline). apply list_elem_of_In in Hin.
    simpl in Hline. destruct Hline as [Hgroup|Hline]; [discriminate|].
    apply in_flat_map in Hline as (y & Hy & Hline).
    apply list_elem_of_In in Hy, Hline.
    apply elem_of_seqZ in Hy.
    apply mapped_line_of in Hline as (Heq & Hlive & Hname & Hchip).
    destruct (Hwf p d Hin) as [Hb He].
    assert (y = x) as ->.
    { apply to_int_injective; [|exact Hx|exact Heq].
      unfold is_uint in *. lia. }
    split; [exists p, d; split; [exact Hin | lia]|].
    repeat split; assumption.
  - intros ((p & d & Hin & Hrange) & Hlive & Hname & Hchip).
    exists (p, d). split; [apply list_elem_of_In; exact Hin|].
    simpl. right. apply in_flat_map. exists x. split.
    + apply list_elem_of_In, elem_of_seqZ. lia.
    + apply list_elem_of_In, mapped_line_of. repeat split; assumption.
Qed.

End DumpProperties.

(** * The further properties on the reference board *)

Lemma domain_100_8_fits : domain_fits domain_100_8.
Proof. unfold domain_fits, INT_MAX. simpl. lia. Qed.

Lemma two_domain_world_fields (p : ptr) (d : vmm_host_irqdomain) :
  (p, d) ∈ domains two_domain_world -> is_uint (base d) /\ is_uint (end_ d).
Proof.
  intros Hin. simpl in Hin.
  apply elem_of_cons in Hin as [[= -> ->]|Hin];
    [|apply list_elem_of_singleton in Hin; injection Hin as -> ->];
    unfold is_uint, UINT_MAX; simpl; lia.
Qed.

Lemma get_after_add_witness :
  exists d : vmm_host_irqdomain,
    domains apart_world
      = domains (snd (vmm_host_irqdomain_add 0 0 8 0 0 (boot 2)))
          ++ [(2%positive, d)] /\
    count d = 8 /\
    forall hirq : Z,
      fst (vmm_host_irqdomain_get hirq apart_world) =
        match fst (vmm_host_irqdomain_get hirq
                     (snd (vmm_host_irqdomain_add 0 0 8 0 0 (boot 2)))) with
        | Some q => Some q
        | None =>
            if (hirq >? base d) && (hirq <? end_ d) then Some 2%positive
            else None
        end.
Proof.
  refine (get_after_add (snd (vmm_host_irqdomain_add 0 0 8 0 0 (boot 2)))
            apart_world 0 8 8 0 0 2%positive _).
  reflexivity.
Defined.

Lemma add_then_remove_restores_registry_witness :
  exists w'' : world board,
    vmm_host_irqdomain_remove (Some 2%positive) apart_world = Some w'' /\
    domains w'' = [(1%positive, mk_domain 0 0 8 8 0 0)].
Proof.
  refine (add_then_remove_restores_registry
            (snd (vmm_host_irqdomain_add 0 0 8 0 0 (boot 2)))
            apart_world 0 8 8 0 0 2%positive _ _).
  - reflexivity.
  - simpl. intros Hin. apply list_elem_of_singleton in Hin. discriminate.
Defined.

Lemma removed_domain_not_resolved_witness :
  fst (vmm_host_irqdomain_get 109
         (mk_world [(2%positive, mk_domain 0 108 4 112 0 0)]
                   (mk_board [108] 2048 1024 2 3%positive)
                   [EvDisposeMapping 100; EvDisposeMapping 101;
                    EvDisposeMapping 102; EvDisposeMapping 103;
                    EvDisposeMapping 104; EvDisposeMapping 105;
                    EvDisposeMapping 106; EvDisposeMapping 107;
                    EvFree 1%positive]))
    = Some 2%positive.
Proof.
  refine (proj2 (removed_domain_not_resolved two_domain_world _ 1%positive
                   _ _ 109) 2%positive _ _).
  - simpl. apply NoDup_cons. split.
    + intros Hin. apply list_elem_of_singleton in Hin. discriminate.
    + apply NoDup_singleton.
  - reflexivity.
  - discriminate.
  - reflexivity.
Defined.

Lemma addresses_unique_when_fresh_witness :
  NoDup (domains apart_world).*1.
Proof.
  refine (addresses_unique_when_fresh apart_world _).
  unfold apart_world.
  eapply (reach_step _ _ _ (OpAdd 0 8 8 0 0)); [|reflexivity|].
  - eapply (reach_step _ _ _ (OpAdd 0 0 8 0 0)); [|reflexivity|].
    + apply reach_init.
    + intros p d _ Hin. inversion Hin.
  - intros p d Hlinked.
    change ([(1%positive, mk_domain 0 0 8 8 0 0);
             (2%positive, mk_domain 0 8 8 16 0 0)]
            = [(1%positive, mk_domain 0 0 8 8 0 0)] ++ [(p, d)]) in Hlinked.
    injection Hlinked as <- <-.
    intros Hin. apply list_elem_of_singleton in Hin. discriminate.
Defined.

Lemma translation_round_trip_witness :
  vmm_host_irqdomain_to_hwirq domain_100_8
    (vmm_host_irqdomain_find_mapping
       (mk_board [108] 2048 1024 0 1%positive) domain_100_8 8) = 8.
Proof.
  refine (proj1 (translation_round_trip
                   (mk_board [108] 2048 1024 0 1%positive) domain_100_8
                   domain_100_8_fits) 8 _ _).
  - simpl. lia.
  - reflexivity.
Defined.

Lemma create_mapping_translates_back_witness :
  8 <= count domain_100_8 /\ 108 = base domain_100_8 + 8 /\
  vmm_host_irqdomain_to_hwirq domain_100_8 108 = 8.
Proof.
  refine (create_mapping_translates_back (boot 0)
            (mk_world [] (mk_board [108] 2048 1024 0 1%positive)
                      [EvCreateMapping 108])
            domain_100_8 8 108 _ domain_100_8_fits _ _ _).
  - simpl. lia.
  - lia.
  - reflexivity.
  - lia.
Defined.

Lemma to_hwirq_injective_witness :
  vmm_host_irqdomain_to_hwirq domain_100_8 104
    = vmm_host_irqdomain_to_hwirq domain_100_8 (100 + 4) /\
  104 = 100 + 4.
Proof.
  split; [reflexivity|].
  refine (to_hwirq_injective domain_100_8 104 (100 + 4) _ _ _ _ _ _);
    try reflexivity; unfold is_uint, UINT_MAX; simpl; lia.
Defined.

Lemma resolved_number_translates_witness :
  exists d : vmm_host_irqdomain,
    (1%positive, d) ∈ domains one_domain_world /\
    (domain_fits d ->
     0 < vmm_host_irqdomain_to_hwirq d 103 < count d /\
     base d + vmm_host_irqdomain_to_hwirq d 103 = 103).
Proof.
  refine (resolved_number_translates one_domain_world 103 1%positive _).
  reflexivity.
Defined.

Lemma find_mapping_after_create_witness :
  vmm_host_irqdomain_find_mapping
    (mk_board [103] 2048 1024 0 1%positive) domain_100_8 3 = 103.
Proof.
  refine (find_mapping_after_create (boot 0)
            (mk_world [] (mk_board [103] 2048 1024 0 1%positive)
                      [EvCreateMapping 103])
            domain_100_8 3 103 board_create_makes_live _ _ _).
  - simpl. lia.
  - reflexivity.
  - lia.
Defined.

Lemma dispose_mapping_inside_delegates_witness :
  vmm_host_irqdomain_dispose_mapping 101 one_domain_world =
    let (r, e') :=
      vmm_host_irqext_dispose_mapping (ext one_domain_world) 101 in
    (r, mk_world (domains one_domain_world) e'
                 (trace one_domain_world ++ [EvDisposeMapping 101])).
Proof.
  refine (dispose_mapping_inside_delegates one_domain_world 1%positive
            domain_100_8 101 _ _).
  - left.
  - simpl. lia.
Defined.

Lemma dispose_mapping_at_end_witness :
  vmm_host_irqdomain_dispose_mapping (end_ domain_100_8) one_domain_world
    = (VMM_ENOTAVAIL,
       mk_world (domains one_domain_world) (ext one_domain_world)
                (trace one_domain_world ++ [EvPrintf])).
Proof.
  refine (dispose_mapping_at_end one_domain_world 1%positive domain_100_8
            _ _ _).
  - left.
  - apply registry_disjoint_singleton.
  - simpl. lia.
Defined.

Lemma mapping_at_end_outlives_remove_witness :
  exists (w1 w2 : world board) (r : Z),
    vmm_host_irqdomain_create_mapping
      (Some domain_100_8) (count domain_100_8) one_domain_world = (r, w1) /\
    vmm_host_irqdomain_remove (Some 1%positive) w1 = Some w2 /\
    trace w2 =
      trace one_domain_world ++ [EvCreateMapping (end_ domain_100_8)] ++
        map EvDisposeMapping
            (seqZ (base domain_100_8)
                  (end_ domain_100_8 - base domain_100_8)) ++
        [EvFree 1%positive] /\
    EvDisposeMapping (end_ domain_100_8)
      ∉ map EvDisposeMapping
            (seqZ (base domain_100_8)
                  (end_ domain_100_8 - base domain_100_8)).
Proof.
  refine (mapping_at_end_outlives_remove one_domain_world 1%positive
            domain_100_8 [] [] _ _ _ _ _ _).
  - reflexivity.
  - apply not_elem_of_nil.
  - unfold is_uint, UINT_MAX. simpl. lia.
  - unfold is_uint, UINT_MAX. simpl. lia.
  - reflexivity.
  - vm_compute. reflexivity.
Defined.

Lemma reachable_records_well_formed_witness :
  record_well_formed (mk_domain 0 96 8 104 0 0).
Proof.
  refine (reachable_records_well_formed overlapping_world
            overlapping_world_reachable 1%positive _ _).
  left.
Defined.

Lemma explicit_base_within_capacity_witness :
  exists d : vmm_host_irqdomain,
    domains (snd (vmm_host_irqdomain_add 0 100 8 0 0 (boot 1)))
      = domains (boot 1) ++ [(1%positive, d)] /\
    base d = 100 /\
    base d < CONFIG_HOST_IRQ_COUNT /\ end_ d < CONFIG_HOST_IRQ_COUNT /\
    forall hirq : Z, hirq <= end_ d -> hirq < CONFIG_HOST_IRQ_COUNT.
Proof.
  refine (explicit_base_within_capacity (boot 1)
            (snd (vmm_host_irqdomain_add 0 100 8 0 0 (boot 1)))
            0 100 8 0 0 1%positive _ _ _).
  - simpl. unfold INT_MAX. lia.
  - lia.
  - reflexivity.
Defined.

Lemma debug_dump_lists_live_numbers_witness :
  vmm_host_irqdomain_debug_dump two_domain_world
    = [LineGroup 100 108; LineMapped 101 101 None;
       LineGroup 108 112; LineMapped 108 108 None].
Proof.
  refine (eq_trans
            (proj1 (debug_dump_lists_live_numbers two_domain_world
                      two_domain_world_fields)) _).
  reflexivity.
Defined.

Section Ownership.

Context {plat : Platform} {E : Type} {col : Collaborators E}.

(** ** Which domain a number is resolved to *)

(** X18: a domain of fewer than two lines is never returned by [get]: after
    a successful [add] with [size] 0 or 1 every host IRQ number is resolved
    as it was before, since no number lies strictly between [base] and
    [end]. *)
Theorem add_small_domain_unresolved
    (w w' : world E) (of_node b size ops' hd : Z) (p : ptr) :
  0 <= size <= 1 ->
  vmm_host_irqdomain_add of_node b size ops' hd w = (Some p, w') ->
  forall hirq : Z,
    fst (vmm_host_irqdomain_get hirq w')
      = fst (vmm_host_irqdomain_get hirq w).
Proof.
  intros Hsize Hadd hirq.
  destruct (add_links _ _ _ _ _ _ _ _ Hadd) as (pos & Hw' & _).
  rewrite !get_result, Hw', scan_domains_app. simpl.
  destruct (scan_domains (domains w) hirq); [reflexivity|].
  pose proof (to_uint_is_uint pos) as Hb.
  pose proof (to_uint_is_uint (to_uint pos + size)) as He.
  assert (Hend : to_uint (to_uint pos + size) <= to_uint pos + 1).
  { unfold is_uint, UINT_MAX in *.
    destruct (Z.le_gt_cases (to_uint pos + size) (2 ^ 32 - 1)) as [Hfit|Hwrap].
    - rewrite (to_uint_id (to_uint pos + size))
        by (unfold is_uint, UINT_MAX; lia). lia.
    - unfold to_uint at 1.
      replace (to_uint pos + size) with (0 + 1 * 2 ^ 32) by lia.
      rewrite Z_mod_plus_full, Z.mod_0_l by lia. lia. }
  destruct (Z.gtb_spec hirq (to_uint pos)); [|reflexivity].
  destruct (Z.ltb_spec hirq (to_uint (to_uint pos + size))); [lia|].
  reflexivity.
Qed.

(** X19: when the ranges of the linked domains are pairwise disjoint, the
    order of the registry does not matter to [get]: a host IRQ number
    strictly inside the range of a linked domain is resolved to that
    domain. *)
Theorem get_resolves_owner_when_disjoint
    (w : world E) (i : nat) (p : ptr) (d : vmm_host_irqdomain) (hirq : Z) :
  registry_disjoint (domains w) ->
  domains w !! i = Some (p, d) ->
  base d < hirq < end_ d ->
  vmm_host_irqdomain_get hirq w = (Some p, w).
Proof.
  intros Hdisj Hi Hinside. unfold vmm_host_irqdomain_get.
  destruct (scan_domains (domains w) hirq) as [q|] eqn:Hscan.
  - destruct (scan_domains_found _ _ _ Hscan) as (j & d' & Hj & Hin' & _).
    destruct (decide (i = j)) as [->|Hne].
    + rewrite Hi in Hj. injection Hj as <- _. reflexivity.
    + exfalso. unfold strictly_inside in Hin'.
      apply (Hdisj i j p q d d' Hne Hi Hj hirq); lia.
  - exfalso.
    apply (proj1 (scan_domains_none _ _) Hscan p d).
    + apply list_elem_of_lookup. exists i. exact Hi.
    + exact Hinside.
Qed.

End Ownership.

Lemma add_small_domain_unresolved_witness :
  fst (vmm_host_irqdomain_get 100
         (snd (vmm_host_irqdomain_add 0 100 1 0 0 (boot 1))))
    = fst (vmm_host_irqdomain_get 100 (boot 1)).
Proof.
  refine (add_small_domain_unresolved (boot 1)
            (snd (vmm_host_irqdomain_add 0 100 1 0 0 (boot 1)))
            0 100 1 0 0 1%positive _ _ 100).
  - lia.
  - reflexivity.
Defined.

Lemma get_resolves_owner_when_disjoint_witness :
  vmm_host_irqdomain_get 109 two_domain_world
    = (Some 2%positive, two_domain_world).
Proof.
  refine (get_resolves_owner_when_disjoint two_domain_world 1%nat 2%positive
            (mk_domain 0 108 4 112 0 0) 109 _ _ _).
  - intros [|[|i]] [|[|j]] pa pb a b Hne Hi Hj; simpl in *;
      try contradiction; try discriminate;
      injection Hi as <- <-; injection Hj as <- <-;
      intros x Ha Hb; simpl in *; lia.
  - reflexivity.
  - simpl. lia.
Defined.
